(** * out_newrelic: batching and delivery core of the New Relic output plugin

    A shallow embedding of [out_newrelic.go]: the record normalizer
    ([remapRecord], [timeToMillis], [prepareRecord]), plugin initialization
    ([FLBPluginInit]), the batch accumulator ([addRecord], [shouldSend],
    [sendRecords]) and the payload packager ([prepare], [packagePayload]).

    Go maps are [gmap]s, slices are lists, [int64] values are integers with
    the wrap-around written out, and a function that can panic returns a
    [res].  The global [bufferManager], the wall clock and the goroutines
    started by [prepare] live in an explicit [State].  The HTTP exchange of
    [makeRequest] is outside the model: a goroutine is recorded with the
    payload it was started on. *)

From stdpp Require Import gmap strings list fin_maps pretty.
From Stdlib Require Import ZArith Lia.

Local Open Scope Z_scope.
Set Warnings "-register-all".

(** ** 64-bit signed integers *)

Module Int64.

Definition min_int : Z := - 2 ^ 63.
Definition max_int : Z := 2 ^ 63 - 1.

Definition in_range (z : Z) : Prop := min_int <= z <= max_int.

(** Two's-complement wrap-around of an arbitrary integer. *)
Definition wrap (z : Z) : Z := (z + 2 ^ 63) mod 2 ^ 64 - 2 ^ 63.

Definition sub (a b : Z) : Z := wrap (a - b).
Definition mul (a b : Z) : Z := wrap (a * b).

(** Go's [/] on integers truncates toward zero. *)
Definition div (a b : Z) : Z := wrap (Z.quot a b).

(** [int64(u)] for [u : uint64]. *)
Definition of_uint64 (u : Z) : Z := wrap u.

End Int64.

(** ** Results of Go calls

    A call returns, panics, or (for the one recursive function that is not
    structurally terminating) exhausts the fuel of the model. *)

Inductive PanicValue :=
| TypeAssertion            (* failed [x.(T)] *)
| ErrorValue (err : string). (* [panic(err)] *)

Inductive res (A : Type) :=
| Ret (a : A)
| Panic (p : PanicValue)
| OutOfFuel.
Arguments Ret {A} a.
Arguments Panic {A} p.
Arguments OutOfFuel {A}.

Definition res_bind {A B} (m : res A) (f : A -> res B) : res B :=
  match m with
  | Ret a => f a
  | Panic p => Panic p
  | OutOfFuel => OutOfFuel
  end.

Definition res_map {A B} (f : A -> B) (m : res A) : res B :=
  res_bind m (fun a => Ret (f a)).

(** ** Dynamic values

    What an [interface{}] holds in this program: the shapes produced by the
    record decoder, plus the two string-keyed maps the plugin builds. *)

Inductive Key :=
| KString (s : string)
| KInt64 (z : Z)
| KUint64 (z : Z)
| KBool (b : bool)
| KNil.

Global Instance Key_eq_dec : EqDecision Key.
Proof. solve_decision. Defined.

Definition Key_to_sum (k : Key) : string + (Z + (Z + (bool + ()))) :=
  match k with
  | KString s => inl s
  | KInt64 z => inr (inl z)
  | KUint64 z => inr (inr (inl z))
  | KBool b => inr (inr (inr (inl b)))
  | KNil => inr (inr (inr (inr ())))
  end.

Definition Key_of_sum (x : string + (Z + (Z + (bool + ())))) : Key :=
  match x with
  | inl s => KString s
  | inr (inl z) => KInt64 z
  | inr (inr (inl z)) => KUint64 z
  | inr (inr (inr (inl b))) => KBool b
  | inr (inr (inr (inr _))) => KNil
  end.

Global Instance Key_countable : Countable Key.
Proof.
  refine (inj_countable' Key_to_sum Key_of_sum _).
  intros []; reflexivity.
Defined.

Inductive Value :=
| VNil
| VBool (b : bool)
| VInt64 (z : Z)
| VUint64 (z : Z)
| VFloat64 (bits : Z)
| VString (s : string)
| VBytes (b : string)                  (* []byte *)
| VSlice (l : list Value)              (* []interface{} *)
| VRawMap (m : gmap Key Value)         (* map[interface{}]interface{} *)
| VMap (m : gmap string Value)         (* map[string]interface{} *)
| VStringMap (m : gmap string string). (* map[string]string *)

(** A decoded input record and a normalized record. *)
Abbreviation RawRecord := (gmap Key Value).
Abbreviation Record_ := (gmap string Value).

(** ** Record normalizer *)

(** [k.(string)] *)
Definition assertString (k : Key) : res string :=
  match k with
  | KString s => Ret s
  | _ => Panic TypeAssertion
  end.

(** The [for k, v := range inputRecord] loop of [remapRecord], over the
    conversion [conv] of one value.  Go leaves the order of the iteration
    open and [map_fold] fixes one; the result does not depend on it, being
    determined by the lookups of [inputRecord].  The conversion and the key
    assertion of one assignment can only panic the same way, so the order
    between the two does not show either. *)
Definition remapLoop (conv : Value -> res Value) (inputRecord : RawRecord)
  : res Record_ :=
  map_fold
    (fun k v acc =>
       res_bind acc (fun outputRecord =>
       res_bind (conv v) (fun value =>
       res_bind (assertString k) (fun key =>
       Ret (<[key := value]> outputRecord)))))
    (Ret ∅) inputRecord.

(** The type switch of the loop body: what is stored for a value [v]. *)
Fixpoint remapValue (v : Value) : res Value :=
  match v with
  | VBytes value => Ret (VString value)
  | VString value => Ret (VString value)
  | VRawMap value => res_map VMap (remapLoop remapValue value)
  | _ => Ret v
  end.

Definition remapRecord (inputRecord : RawRecord) : res Record_ :=
  remapLoop remapValue inputRecord.

Definition maxSeconds : Z := 2000000000.
Definition maxMilliseconds : Z := maxSeconds * 1000.
Definition maxMicroseconds : Z := maxMilliseconds * 1000.

Definition timeToMillis (time : Z) : Z :=
  if time <? maxSeconds then Int64.mul time 1000
  else if time <? maxMilliseconds then time
  else if time <? maxMicroseconds then Int64.div time 1000
  else Int64.div time 1000000.

(** The timestamp handed over by the record decoder. *)
Inductive Timestamp :=
| TsFLBTime (unixNano : Z)   (* output.FLBTime, through UnixNano() *)
| TsUint64 (u : Z)
| TsOther.

Record PluginConfig := {
  endpoint : string;
  apiKey : string;
  licenseKey : string;
  maxBufferSize : Z;
  maxRecords : Z;
  maxTimeBetweenFlushes : Z;
  useApiKey : bool;
  reportingSourceType : string;
  reportingSourceVersion : string
}.

Definition prepareRecord (inputRecord : RawRecord) (inputTimestamp : Timestamp)
    (config : PluginConfig) : res Record_ :=
  res_bind (remapRecord inputRecord) (fun outputRecord =>
  let outputRecord :=
    match inputTimestamp with
    | TsFLBTime unixNano =>
        <["timestamp" := VInt64 (timeToMillis unixNano)]> outputRecord
    | TsUint64 u =>
        <["timestamp" := VInt64 (timeToMillis (Int64.of_uint64 u))]> outputRecord
    | TsOther => outputRecord
    end in
  let outputRecord :=
    match outputRecord !! "log" with
    | Some val => delete "log" (<["message" := val]> outputRecord)
    | None => outputRecord
    end in
  Ret (<["nr.reportingSource" :=
           VStringMap (<["version" := reportingSourceVersion config]>
                       (<["type" := reportingSourceType config]> ∅))]>
         outputRecord)).

(** ** strconv.ParseInt(s, 10, 64) *)

Module strconv.

Inductive NumError := ErrSyntax | ErrRange.

Definition maxUint64 : Z := 2 ^ 64 - 1.

Definition digit (c : Ascii.ascii) : option Z :=
  let n := Z.of_N (Ascii.N_of_ascii c) in
  if (48 <=? n) && (n <=? 57) then Some (n - 48) else None.

(** The digit loop of [ParseUint] in base 10, [n] the value so far. *)
Fixpoint parseDigits (s : string) (n : Z) : Z * option NumError :=
  match s with
  | EmptyString => (n, None)
  | String c s' =>
      match digit c with
      | None => (0, Some ErrSyntax)
      | Some d =>
          if n >=? maxUint64 / 10 + 1 then (maxUint64, Some ErrRange)
          else
            let n1 := n * 10 + d in
            if n1 >? maxUint64 then (maxUint64, Some ErrRange)
            else parseDigits s' n1
      end
  end.

Definition ParseUint (s : string) : Z * option NumError :=
  match s with
  | EmptyString => (0, Some ErrSyntax)
  | _ => parseDigits s 0
  end.

Definition ParseInt (s : string) : Z * option NumError :=
  match s with
  | EmptyString => (0, Some ErrSyntax)
  | String c rest =>
      let neg := Ascii.eqb c (Ascii.ascii_of_nat 45) in
      let s' := if Ascii.eqb c (Ascii.ascii_of_nat 43) || neg then rest else s in
      match ParseUint s' with
      | (_, Some ErrSyntax) => (0, Some ErrSyntax)
      | (un, _) =>
          let cutoff := 2 ^ 63 in
          if negb neg && (un >=? cutoff) then (cutoff - 1, Some ErrRange)
          else if neg && (un >? cutoff) then (- cutoff, Some ErrRange)
          else (if neg then - un else un, None)
      end
  end.

End strconv.

(** ** encoding/json, compress/gzip and bytes.Buffer

    [packagePayload] serializes with [json.Marshal] and compresses into a
    [bytes.Buffer] through a [gzip.Writer].  These libraries are taken by
    their interface: the calls the plugin makes, each of which may return an
    error, and the facts about them that the plugin relies on.  Of decoding
    only this is taken: decompressing gives back what was compressed, and
    the serialized empty list deserializes to the empty list.  What
    [json_Unmarshal] makes of a serialized record is left open, since
    [json.Marshal] writes different values alike. *)

(** [json.Marshal] rejects a [map[interface{}]interface{}] wherever it sits
    in the value. *)
Fixpoint hasRawMap (v : Value) : bool :=
  match v with
  | VRawMap _ => true
  | VSlice l => existsb hasRawMap l
  | VMap m => map_fold (fun _ v' acc => hasRawMap v' || acc) false m
  | _ => false
  end.

Class Encoding := {
  Json : Type;         (* the bytes of a serialized document *)
  GzipWriter : Type;   (* a gzip.Writer together with the buffer under it *)
  Buffer : Type;       (* the bytes.Buffer once the writer is closed *)
  json_Marshal : list Record_ -> Json + string;
  gzip_Write : Json -> GzipWriter + string;   (* gzip.NewWriter(&buffer); g.Write(data) *)
  gzip_Flush : GzipWriter -> GzipWriter + string;
  gzip_Close : GzipWriter -> Buffer + string;
  Buffer_Len : Buffer -> Z;
  Buffer_Cap : Buffer -> Z;
  gunzip : Buffer -> option Json;
  json_Unmarshal : Json -> option (list Record_);
  Buffer_Len_Cap : forall b, 0 <= Buffer_Len b <= Buffer_Cap b;
  gunzip_gzip : forall d g g' b,
    gzip_Write d = inl g -> gzip_Flush g = inl g' -> gzip_Close g' = inl b ->
    gunzip b = Some d;
  json_Unmarshal_Marshal_nil : forall d,
    json_Marshal [] = inl d -> json_Unmarshal d = Some [];
  json_Marshal_unsupported : forall records r,
    In r records -> hasRawMap (VMap r) = true ->
    exists err, json_Marshal records = inr err
}.

(** What a payload chunk holds once decompressed and deserialized. *)
Definition decodeChunk `{Encoding} (b : Buffer) : option (list Record_) :=
  match gunzip b with
  | Some d => json_Unmarshal d
  | None => None
  end.

(** An encoding to run the model on.  The document is kept structured; its
    size is that of its JSON text, the compressed stream adds 18 bytes of
    framing (a gzip header and trailer) and does not shrink it, and the
    buffer holds 64 bytes until it has to grow, to twice what it is given. *)
Module Framed.

Fixpoint jsonSize (v : Value) : nat :=
  match v with
  | VNil => 4
  | VBool _ => 5
  | VInt64 _ | VUint64 _ | VFloat64 _ => 20
  | VString s | VBytes s => 2 + String.length s
  | VSlice l => 2 + foldr (fun v' n => jsonSize v' + 1 + n) 0 l
  | VRawMap _ => 0
  | VMap m =>
      2 + map_fold (fun k v' n => String.length k + 4 + jsonSize v' + n) 0 m
  | VStringMap m =>
      2 + map_fold (fun k v' n => String.length k + String.length v' + 6 + n) 0 m
  end%nat.

Definition Marshal (records : list Record_) : list Record_ + string :=
  if existsb (fun r => hasRawMap (VMap r)) records
  then inr "json: unsupported type: map[interface {}]interface {}"
  else inl records.

Definition Len (b : list Record_) : Z :=
  18 + Z.of_nat (2 + foldr (fun r n => jsonSize (VMap r) + 1 + n) 0 b)%nat.

Definition Cap (b : list Record_) : Z :=
  if Len b <=? 64 then 64 else 2 * Len b.

#[global] Program Instance encoding : Encoding := {|
  Json := list Record_;
  GzipWriter := list Record_;
  Buffer := list Record_;
  json_Marshal := Marshal;
  gzip_Write := inl;
  gzip_Flush := inl;
  gzip_Close := inl;
  Buffer_Len := Len;
  Buffer_Cap := Cap;
  gunzip := Some;
  json_Unmarshal := Some
|}.
Next Obligation.
  intros b. unfold Cap. destruct (Z.leb_spec (Len b) 64); unfold Len in *; lia.
Qed.
Next Obligation. intros d g g' b. congruence. Qed.
Next Obligation. intros d. unfold Marshal. cbn. congruence. Qed.
Next Obligation.
  intros records r Hin Hraw. unfold Marshal.
  assert (existsb (fun r => hasRawMap (VMap r)) records = true) as ->.
  { apply existsb_exists. exists r. split; assumption. }
  eexists. reflexivity.
Qed.

End Framed.

(** ** The plugin: state, accumulator, packager, initialization *)

Record BufferManager := {
  config : PluginConfig;
  buffer : list Record_;
  lastFlushTime : Z
  (* [client *http.Client] is used by [makeRequest] only *)
}.

(** Return codes of the host interface. *)
Definition FLB_ERROR : Z := 0.
Definition FLB_OK : Z := 1.

(** [output.FLBPluginConfigKey]: the value of a key, empty when not set. *)
Definition FLBPluginConfigKey (ctx : gmap string string) (key : string) : string :=
  default "" (ctx !! key).

(** [len(s) == 0] *)
Definition isEmptyString (s : string) : bool := (String.length s =? 0)%nat.

Section Plugin.

Context `{Encoding}.

(** The build version constant of [version.go]. *)
Variable VERSION : string.

Record State := {
  bufferManager : BufferManager;  (* the package-level variable *)
  unixNano : nat -> Z;            (* the k-th reading of time.Now().UnixNano() *)
  clockReads : nat;               (* readings taken so far *)
  goroutines : list Buffer;       (* payloads handed to makeRequest, in start order *)
  logged : list string            (* what log.Print wrote *)
}.

(** The package-level [bufferManager] before initialization. *)
Definition initialState (clock : nat -> Z) : State :=
  {| bufferManager :=
       {| config :=
            {| endpoint := ""; apiKey := ""; licenseKey := "";
               maxBufferSize := 0; maxRecords := 0;
               maxTimeBetweenFlushes := 0; useApiKey := false;
               reportingSourceType := ""; reportingSourceVersion := "" |};
          buffer := []; lastFlushTime := 0 |};
     unixNano := clock; clockReads := 0; goroutines := []; logged := [] |}.

Definition M (A : Type) : Type := State -> res A * State.

Definition ret {A} (a : A) : M A := fun s => (Ret a, s).

Definition bind {A B} (m : M A) (f : A -> M B) : M B :=
  fun s =>
    match m s with
    | (Ret a, s') => f a s'
    | (Panic p, s') => (Panic p, s')
    | (OutOfFuel, s') => (OutOfFuel, s')
    end.

Notation "'let*' x ':=' m 'in' k" := (bind m (fun x => k))
  (at level 10, x name, m at level 100, k at level 200).

Definition panic {A} (err : string) : M A :=
  fun s => (Panic (ErrorValue err), s).

Definition outOfFuel {A} : M A := fun s => (OutOfFuel, s).

Definition lift {A} (r : res A) : M A := fun s => (r, s).

Definition getBufferManager : M BufferManager :=
  fun s => (Ret (bufferManager s), s).

Definition setBufferManager (bm : BufferManager) : M unit :=
  fun s => (Ret tt,
            {| bufferManager := bm; unixNano := unixNano s;
               clockReads := clockReads s; goroutines := goroutines s;
               logged := logged s |}).

Definition logPrint (msg : string) : M unit :=
  fun s => (Ret tt,
            {| bufferManager := bufferManager s; unixNano := unixNano s;
               clockReads := clockReads s; goroutines := goroutines s;
               logged := logged s ++ [msg] |}).

(** [go func() { bufferManager.makeRequest(data, responseChan) }()] *)
Definition goMakeRequest (data : Buffer) : M unit :=
  fun s => (Ret tt,
            {| bufferManager := bufferManager s; unixNano := unixNano s;
               clockReads := clockReads s; goroutines := goroutines s ++ [data];
               logged := logged s |}).

Definition timeNowInMiliseconds : M Z :=
  fun s => (Ret (Int64.div (unixNano s (clockReads s)) 1000000),
            {| bufferManager := bufferManager s; unixNano := unixNano s;
               clockReads := S (clockReads s); goroutines := goroutines s;
               logged := logged s |}).

Definition newBufferManager (config : PluginConfig) : M BufferManager :=
  let* now := timeNowInMiliseconds in
  ret {| lastFlushTime := now; config := config; buffer := [] |}.

(** *** Payload packager *)

Definition packagePayload (records : list Record_)
  : res (Buffer * option string) :=
  match json_Marshal records with
  | inr err => Panic (ErrorValue err)
  | inl data =>
      match gzip_Write data with
      | inr err => Panic (ErrorValue err)
      | inl g =>
          match gzip_Flush g with
          | inr err => Panic (ErrorValue err)
          | inl g' =>
              match gzip_Close g' with
              | inr err => Panic (ErrorValue err)
              | inl buffer => Ret (buffer, None)
              end
          end
      end
  end.

(** [prepare] calls itself on the two halves of [records]; [fuel] bounds
    the depth of these calls, and running out of it stands for a recursion
    that is still going. *)
Fixpoint prepare (fuel : nat) (records : list Record_) : M unit :=
  match fuel with
  | O => outOfFuel
  | S fuel' =>
      let* bm := getBufferManager in
      let config := config bm in
      let* packed := lift (packagePayload records) in
      match packed with
      | (_, Some err) => panic err
      | (data, None) =>
          if Buffer_Cap data >=? maxBufferSize config then
            let first := take (length records / 2) records in
            let second := drop (length records / 2) records in
            let* _ := prepare fuel' first in
            prepare fuel' second
          else goMakeRequest data
      end
  end.

(** *** Batch accumulator *)

Definition isEmpty : M bool :=
  let* bm := getBufferManager in
  ret (Nat.eqb (length (buffer bm)) 0).

Definition shouldSend : M bool :=
  let* bm := getBufferManager in
  if Z.of_nat (length (buffer bm)) >=? maxRecords (config bm) then ret true
  else
    let* now := timeNowInMiliseconds in
    ret (Int64.sub now (lastFlushTime bm) >? maxTimeBetweenFlushes (config bm)).

(** The response channel: created by [sendRecords], written by the sends. *)
Definition responseChan : Type := unit.

Definition sendRecords (fuel : nat) : M responseChan :=
  let* bm := getBufferManager in
  let newBuffer := buffer bm in
  let* _ := setBufferManager
              {| config := config bm; buffer := [];
                 lastFlushTime := lastFlushTime bm |} in
  let* now := timeNowInMiliseconds in
  let* _ := setBufferManager
              {| config := config bm; buffer := []; lastFlushTime := now |} in
  let* _ := prepare fuel newBuffer in
  ret tt.

Definition addRecord (fuel : nat) (record : Record_) : M (option responseChan) :=
  let* bm := getBufferManager in
  let* _ := setBufferManager
              {| config := config bm; buffer := buffer bm ++ [record];
                 lastFlushTime := lastFlushTime bm |} in
  let* send := shouldSend in
  if send then
    let* c := sendRecords fuel in
    ret (Some c)
  else ret None.

(** *** Host entry points *)

Definition parseOrZero (s : string) : Z := fst (strconv.ParseInt s).

Definition FLBPluginInit (ctx : gmap string string) : M Z :=
  let endpoint0 := FLBPluginConfigKey ctx "endpoint" in
  let endpoint :=
    if isEmptyString endpoint0 then "https://log-api.newrelic.com/log/v1"
    else endpoint0 in
  let licenseKey := FLBPluginConfigKey ctx "licenseKey" in
  let apiKey := FLBPluginConfigKey ctx "apiKey" in
  if isEmptyString apiKey && isEmptyString licenseKey then
    let* _ := logPrint "[ERROR] either apiKey or licenseKey must be specified" in
    ret FLB_ERROR
  else if negb (isEmptyString apiKey) && negb (isEmptyString licenseKey) then
    let* _ := logPrint "[ERROR] only one of apiKey or licenseKey can be specified" in
    ret FLB_ERROR
  else
    let useApiKey := negb (isEmptyString apiKey) in
    let possibleeMaxBufferSize := FLBPluginConfigKey ctx "maxBufferSize" in
    let maxBufferSize :=
      if isEmptyString possibleeMaxBufferSize then 256000
      else parseOrZero possibleeMaxBufferSize in
    let possibleMaxRecords := FLBPluginConfigKey ctx "maxRecords" in
    let maxRecords :=
      if isEmptyString possibleMaxRecords then 1024
      else parseOrZero possibleMaxRecords in
    let possibleMaxTimeBetweenFlushes :=
      FLBPluginConfigKey ctx "maxTimeBetweenFlushes" in
    let maxTimeBetweenFlushes :=
      if isEmptyString possibleMaxTimeBetweenFlushes then 5000
      else parseOrZero possibleMaxTimeBetweenFlushes in
    let reportingSourceType0 := FLBPluginConfigKey ctx "reportingSourceType" in
    let reportingSourceType :=
      if isEmptyString reportingSourceType0 then "fluent-bit"
      else reportingSourceType0 in
    let reportingSourceVersion0 :=
      FLBPluginConfigKey ctx "reportingSourceVersion" in
    let reportingSourceVersion :=
      if isEmptyString reportingSourceType0 then VERSION
      else reportingSourceVersion0 in
    let* bm := newBufferManager
                 {| endpoint := endpoint; apiKey := apiKey;
                    licenseKey := licenseKey; maxBufferSize := maxBufferSize;
                    maxRecords := maxRecords;
                    maxTimeBetweenFlushes := maxTimeBetweenFlushes;
                    useApiKey := useApiKey;
                    reportingSourceType := reportingSourceType;
                    reportingSourceVersion := reportingSourceVersion |} in
    let* _ := setBufferManager bm in
    ret FLB_OK.

(** The loop of [FLBPluginFlush] over the records the decoder yields. *)
Fixpoint FLBPluginFlush (fuel : nat) (decoded : list (Timestamp * RawRecord))
  : M Z :=
  match decoded with
  | [] => ret FLB_OK
  | (ts, record) :: rest =>
      let* bm := getBufferManager in
      let* updatedRecord := lift (prepareRecord record ts (config bm)) in
      let* _ := addRecord fuel updatedRecord in
      FLBPluginFlush fuel rest
  end.

Definition FLBPluginExit (fuel : nat) : M Z :=
  let* empty := isEmpty in
  if empty then ret FLB_OK
  else
    let* _ := sendRecords fuel in
    ret FLB_OK.

End Plugin.

(** ** The dispatcher

    [makeRequest] is what each goroutine started by [prepare] runs.  The
    network is taken by its interface ([Transport]): whether
    [http.NewRequest] accepts the endpoint, and what [client.Do] answers.
    A run is recorded by how it ends, by what it did in order, and by what
    the response channel holds afterwards. *)

Section Dispatcher.

Context `{Encoding}.

Record Request := {
  Method : string;
  URL : string;
  Body : Buffer;
  Header : gmap string (list string)
}.

Record Response := {
  StatusCode : Z;
  ResponseBody : string
}.

Record Transport := {
  NewRequest_error : string -> option string;  (* the error of http.NewRequest on a URL *)
  client_Do : Request -> Response + string
}.

(** [req.Header.Add(key, value)], for a key in canonical form. *)
Definition Header_Add (key value : string) (req : Request) : Request :=
  {| Method := Method req; URL := URL req; Body := Body req;
     Header := <[key := default [] (Header req !! key) ++ [value]]> (Header req) |}.

Inductive Event :=
| EvDo (req : Request)          (* client.Do(req) *)
| EvLog (msg : string)          (* log.Printf *)
| EvSend (resp : Response)      (* responseChan <- resp, completed *)
| EvReadBody (resp : Response)  (* io.Copy(ioutil.Discard, resp.Body) *)
| EvCloseBody (resp : Response). (* resp.Body.Close() *)

Inductive Ending :=
| Returned (err : option string)
| BlockedOnSend.                (* parked on a full channel *)

Record Run := {
  ending : Ending;
  events : list Event;
  channel : list Response       (* the responses queued in responseChan *)
}.

(** [make(chan *http.Response, 1)] in [sendRecords]. *)
Definition responseChanCapacity : nat := 1.

Definition makeRequest (net : Transport) (config : PluginConfig) (buffer : Buffer)
    (chan : list Response) : Run :=
  match NewRequest_error net (endpoint config) with
  | Some err => {| ending := Returned (Some err); events := []; channel := chan |}
  | None =>
      let req := {| Method := "POST"; URL := endpoint config; Body := buffer;
                    Header := ∅ |} in
      let req :=
        if useApiKey config then Header_Add "X-Insert-Key" (apiKey config) req
        else Header_Add "X-License-Key" (licenseKey config) req in
      let req := Header_Add "Content-Encoding" "gzip" req in
      let req := Header_Add "Content-Type" "application/json" req in
      match client_Do net req with
      | inr err =>
          {| ending := Returned (Some err);
             events := [EvDo req;
                        EvLog ("[DEBUG] Error making HTTP request: " ++ err)];
             channel := chan |}
      | inl resp =>
          if negb (StatusCode resp =? 202) then
            {| ending := Returned None;
               events := [EvDo req;
                          EvLog ("[DEBUG] Error making HTTP request.  Got status code: "
                                 ++ pretty (StatusCode resp))];
               channel := chan |}
          else
            (* the two deferred calls run, last first, once the send is through *)
            if (length chan <? responseChanCapacity)%nat then
              {| ending := Returned None;
                 events := [EvDo req; EvSend resp; EvReadBody resp; EvCloseBody resp];
                 channel := chan ++ [resp] |}
            else
              {| ending := BlockedOnSend; events := [EvDo req]; channel := chan |}
      end
  end.

(** The function literal of the [go] statement in [prepare]. *)
Definition goFunc (net : Transport) (config : PluginConfig) (data : Buffer)
    (chan : list Response) : Run :=
  let run := makeRequest net config data chan in
  match ending run with
  | Returned (Some err) =>
      {| ending := ending run;
         events := events run ++ [EvLog ("[DEBUG] Error making HTTP request: " ++ err)];
         channel := channel run |}
  | _ => run
  end.

(** The goroutines of one flush, taken in the order in which they reach the
    channel, when nothing receives from it. *)
Fixpoint runGoroutines (net : Transport) (config : PluginConfig)
    (payloads : list Buffer) (chan : list Response) : list Run :=
  match payloads with
  | [] => []
  | data :: rest =>
      let run := goFunc net config data chan in
      run :: runGoroutines net config rest (channel run)
  end.

End Dispatcher.

(** ** Specification vocabulary *)

(** Nesting depth-and-width of the raw maps in a value, to recurse on. *)
Fixpoint rawSize (v : Value) : nat :=
  match v with
  | VRawMap m => S (map_fold (fun _ v' n => (rawSize v' + n)%nat) 0%nat m)
  | _ => 0%nat
  end.

(** Every key is a string, here and in the raw maps that are values of
    string-keyed raw maps (not those inside lists). *)
Inductive StringKeyed : RawRecord -> Prop :=
| StringKeyed_intro m :
    (forall k v, m !! k = Some v ->
       (exists s, k = KString s) /\
       (forall m', v = VRawMap m' -> StringKeyed m')) ->
    StringKeyed m.

(** The normalization of the specification: byte sequences become text,
    nested mappings are normalized, anything else is kept. *)
Inductive Normalizes : RawRecord -> Record_ -> Prop :=
| Normalizes_intro m out :
    (forall s v, m !! KString s = Some v ->
       exists v', out !! s = Some v' /\ NormalizesValue v v') ->
    (forall s, m !! KString s = None -> out !! s = None) ->
    Normalizes m out
with NormalizesValue : Value -> Value -> Prop :=
| NormalizesValue_bytes b : NormalizesValue (VBytes b) (VString b)
| NormalizesValue_map m out :
    Normalizes m out -> NormalizesValue (VRawMap m) (VMap out)
| NormalizesValue_other v :
    (forall b, v <> VBytes b) -> (forall m, v <> VRawMap m) ->
    NormalizesValue v v.

(** What [remapRecord] does on [m]: it returns the normalization when the
    keys are strings, and panics on the type assertion otherwise. *)
Definition remapOutcome (m : RawRecord) : Prop :=
  (StringKeyed m /\ exists out, remapRecord m = Ret out /\ Normalizes m out) \/
  (~ StringKeyed m /\ remapRecord m = Panic TypeAssertion).

Definition valueOutcome (v : Value) : Prop :=
  ((forall m', v = VRawMap m' -> StringKeyed m') /\
   exists v', remapValue v = Ret v' /\ NormalizesValue v v') \/
  (~ (forall m', v = VRawMap m' -> StringKeyed m') /\
   remapValue v = Panic TypeAssertion).

(** A raw value that will still hold a [map[interface{}]interface{}] once
    normalized: one inside a list, or inside a string-keyed map that is not
    remapped, at any depth of directly nested raw maps. *)
Fixpoint hidesRawMap (v : Value) : bool :=
  match v with
  | VRawMap m => map_fold (fun _ v' acc => hidesRawMap v' || acc) false m
  | VSlice l => existsb hasRawMap l
  | VMap m => hasRawMap (VMap m)
  | _ => false
  end.

(** [seg] is a run of consecutive elements of [l]. *)
Definition segment {A} (seg l : list A) : Prop :=
  exists pre post, l = pre ++ seg ++ post.

Section Vocabulary.

Context `{Encoding}.

(** [s'] is [s] with the payloads [chunks] handed to new goroutines, and
    nothing else changed. *)
Definition dispatched (s s' : State) (chunks : list Buffer) : Prop :=
  bufferManager s' = bufferManager s /\
  unixNano s' = unixNano s /\
  clockReads s' = clockReads s /\
  logged s' = logged s /\
  goroutines s' = goroutines s ++ chunks.

(** [b] is the packaged form of [part]: it decompresses to the document
    [json.Marshal] writes for [part], so that deserializing [b] is
    deserializing that document. *)
Definition carries (b : Buffer) (part : list Record_) : Prop :=
  packagePayload part = Ret (b, None) /\
  exists d, json_Marshal part = inl d /\ gunzip b = Some d /\
            decodeChunk b = json_Unmarshal d.

(** [b] is the packaged form of [records], small enough to be sent. *)
Definition packs (cap : Z) (records : list Record_) (b : Buffer) : Prop :=
  packagePayload records = Ret (b, None) /\ Buffer_Cap b < cap.

(** Every run of [records] can be packaged, and runs of at most one record
    fit under the cap. *)
Definition packable (cap : Z) (records : list Record_) : Prop :=
  forall seg, segment seg records ->
    exists data, packagePayload seg = Ret (data, None) /\
                 ((length seg <= 1)%nat -> Buffer_Cap data < cap).

(** The time [timeNowInMiliseconds] returns in state [s]. *)
Definition nowMillis (s : State) : Z :=
  Int64.div (unixNano s (clockReads s)) 1000000.

(** The flush condition as [shouldSend] evaluates it once [record] has
    been appended. *)
Definition flushDue (s : State) (record : Record_) : Prop :=
  let bm := bufferManager s in
  maxRecords (config bm) <= Z.of_nat (length (buffer bm ++ [record])) \/
  maxTimeBetweenFlushes (config bm) < Int64.sub (nowMillis s) (lastFlushTime bm).

(** [s] with [record] appended to the batch. *)
Definition appended (s : State) (record : Record_) : State :=
  {| bufferManager :=
       {| config := config (bufferManager s);
          buffer := buffer (bufferManager s) ++ [record];
          lastFlushTime := lastFlushTime (bufferManager s) |};
     unixNano := unixNano s; clockReads := clockReads s;
     goroutines := goroutines s; logged := logged s |}.

(** [s] after one reading of the clock. *)
Definition ticked (s : State) : State :=
  {| bufferManager := bufferManager s; unixNano := unixNano s;
     clockReads := S (clockReads s); goroutines := goroutines s;
     logged := logged s |}.

(** [s] with the batch swapped for an empty one and the flush time reset. *)
Definition swapped (s : State) : State :=
  {| bufferManager :=
       {| config := config (bufferManager s); buffer := [];
          lastFlushTime := nowMillis s |};
     unixNano := unixNano s; clockReads := S (clockReads s);
     goroutines := goroutines s; logged := logged s |}.

End Vocabulary.

(** ** Sample data, on the [Framed] encoding *)

(** A clock that starts on 18 Apr 2019 and advances one millisecond per
    reading. *)
Definition exampleClock : nat -> Z :=
  fun k => 1555612951401000000 + 1000000 * Z.of_nat k.

Definition exampleConfig (maxBufferSize maxRecords maxTimeBetweenFlushes : Z)
  : PluginConfig :=
  {| endpoint := "https://log-api.newrelic.com/log/v1";
     apiKey := ""; licenseKey := "0123456789abcdef";
     maxBufferSize := maxBufferSize; maxRecords := maxRecords;
     maxTimeBetweenFlushes := maxTimeBetweenFlushes; useApiKey := false;
     reportingSourceType := "fluent-bit"; reportingSourceVersion := "1.1.0" |}.

(** A clock on which six seconds pass between two readings. *)
Definition slowClock : nat -> Z :=
  fun k => 1555612951401000000 + 6000000000 * Z.of_nat k.

(** A running plugin: [buffer] waiting, last flush at [lastFlushTime]. *)
Definition exampleState (config : PluginConfig) (buffer : list Record_)
    (lastFlushTime : Z) : State :=
  {| bufferManager :=
       {| config := config; buffer := buffer; lastFlushTime := lastFlushTime |};
     unixNano := exampleClock; clockReads := 0; goroutines := []; logged := [] |}.

Definition exampleRecord (msg : string) : Record_ :=
  {[ "message" := VString msg ]}.

(** A normalized record that still holds a mapping inside a list. *)
Definition exampleUnsupportedRecord : Record_ :=
  {[ "message" := VString "service started";
     "tags" := VSlice [VRawMap {[ KString "env" := VString "prod" ]}] ]}.

(** An endpoint that accepts everything, and one that is overloaded. *)
Definition acceptingNet : Transport :=
  {| NewRequest_error := fun _ => None;
     client_Do := fun _ => inl {| StatusCode := 202; ResponseBody := "" |} |}.
Definition overloadedNet : Transport :=
  {| NewRequest_error := fun _ => None;
     client_Do := fun _ => inl {| StatusCode := 503; ResponseBody := "busy" |} |}.

(** A message of 41 bytes and one of 106 bytes. *)
Definition mediumMessage : string :=
  "GET /api/v1/health 200 3ms 10.1.4.27 curl".
Definition longMessage : string :=
  "java.lang.IllegalStateException: connection pool exhausted at com.example.pool.Pool.acquire(Pool.java:211)".

(** Two messages of 12 bytes: a record holding one of them packages into
    less than the 64 bytes a [bytes.Buffer] starts with, a list of both
    into more. *)
Definition diskMessage : string := "disk is full".
Definition cpuMessage : string := "cpu too high".

(** A decoded record with a list of mappings among its values. *)
Definition exampleRawRecord : RawRecord :=
  {[ KString "log" := VBytes "service started";
     KString "tags" := VSlice [VRawMap {[ KString "env" := VString "prod" ]}] ]}.

(** * Properties *)

(** ** Integer helpers *)

Lemma Int64_wrap_in_range z : Int64.in_range (Int64.wrap z).
Proof.
  unfold Int64.in_range, Int64.wrap, Int64.min_int, Int64.max_int.
  pose proof (Z.mod_pos_bound (z + 2 ^ 63) (2 ^ 64) ltac:(lia)). lia.
Qed.

Lemma Int64_wrap_id z : Int64.in_range z -> Int64.wrap z = z.
Proof.
  unfold Int64.in_range, Int64.wrap, Int64.min_int, Int64.max_int. intros Hz.
  rewrite Z.mod_small by lia. lia.
Qed.

Lemma Int64_div_exact a b :
  0 <= a -> Int64.in_range a -> 0 < b -> Int64.div a b = a `quot` b.
Proof.
  intros Ha Hr Hb. unfold Int64.div. apply Int64_wrap_id.
  unfold Int64.in_range, Int64.min_int, Int64.max_int in *.
  rewrite Z.quot_div_nonneg by lia.
  pose proof (Z.div_pos a b ltac:(lia) ltac:(lia)).
  pose proof (Z.div_le_upper_bound a b (2 ^ 63 - 1) ltac:(lia)). nia.
Qed.

(** ** Record normalizer *)

Lemma rawSize_lookup (m : RawRecord) k v :
  m !! k = Some v -> (rawSize v < rawSize (VRawMap m))%nat.
Proof.
  cbn [rawSize]. intros Hl.
  enough (rawSize v <= map_fold (fun _ v' n => (rawSize v' + n)%nat) 0%nat m)%nat by lia.
  revert Hl.
  apply (map_fold_weak_ind
           (fun (r : nat) (m : RawRecord) => m !! k = Some v -> (rawSize v <= r)%nat)).
  - rewrite lookup_empty. discriminate.
  - intros i x m' r Hnone IH Hl.
    destruct (decide (i = k)) as [-> | Hne].
    + rewrite lookup_insert_eq in Hl. injection Hl as ->. lia.
    + rewrite lookup_insert_ne in Hl by assumption. specialize (IH Hl). lia.
Qed.

Lemma remapValue_outcome v :
  (forall m', v = VRawMap m' -> remapOutcome m') -> valueOutcome v.
Proof.
  intros Hnested. unfold valueOutcome.
  destruct v as [| | | | | |b| |m| |];
    try (left; split; [discriminate |]; eexists; split; [reflexivity |];
         first [ apply NormalizesValue_bytes
               | apply NormalizesValue_other; discriminate ]).
  destruct (Hnested m eq_refl) as [(Hk & out & Hr & Hn) | (Hk & Hr)].
  - left. split; [intros m' [= <-]; assumption |].
    exists (VMap out). split.
    + change (remapValue (VRawMap m)) with (res_map VMap (remapRecord m)).
      rewrite Hr. reflexivity.
    + apply NormalizesValue_map. assumption.
  - right. split; [intros Hall; apply Hk, (Hall m eq_refl) |].
    change (remapValue (VRawMap m)) with (res_map VMap (remapRecord m)).
    rewrite Hr. reflexivity.
Qed.

Lemma StringKeyed_insert_inv (m : RawRecord) i x :
  m !! i = None -> StringKeyed (<[i := x]> m) ->
  StringKeyed m /\ (exists s, i = KString s) /\
  (forall m', x = VRawMap m' -> StringKeyed m').
Proof.
  intros Hnone Hk. inversion Hk as [m0 Hall]; subst m0. split; [| apply Hall, lookup_insert_eq].
  constructor. intros k v Hl. apply Hall.
  rewrite lookup_insert_ne; [assumption |]. intros ->. congruence.
Qed.

Lemma remapLoop_outcome (m : RawRecord) :
  (forall k v, m !! k = Some v -> valueOutcome v) -> remapOutcome m.
Proof.
  unfold remapOutcome, remapRecord, remapLoop.
  apply (map_fold_weak_ind
    (fun (r : res Record_) (m : RawRecord) =>
       (forall k v, m !! k = Some v -> valueOutcome v) ->
       (StringKeyed m /\ exists out, r = Ret out /\ Normalizes m out) \/
       (~ StringKeyed m /\ r = Panic TypeAssertion))).
  - intros _. left. split.
    + constructor. intros k v. rewrite lookup_empty. discriminate.
    + exists ∅. split; [reflexivity |]. constructor.
      * intros s v. rewrite lookup_empty. discriminate.
      * intros s _. apply lookup_empty.
  - intros i x m' r Hnone IH Hvals.
    assert (Hvals' : forall k v, m' !! k = Some v -> valueOutcome v).
    { intros k v Hl. apply (Hvals k). rewrite lookup_insert_ne; [assumption |].
      intros ->. congruence. }
    destruct (IH Hvals') as [(Hk & out & -> & Hn) | (Hk & ->)]; cbn [res_bind].
    2: { right. split; [| reflexivity]. intros Hk'.
         destruct (StringKeyed_insert_inv _ _ _ Hnone Hk') as (Hm & _ & _).
         exact (Hk Hm). }
    destruct (Hvals i x (lookup_insert_eq _ _ _)) as [(Hx & x' & -> & Hnx) | (Hx & ->)];
      cbn [res_bind].
    2: { right. split; [| reflexivity]. intros Hk'.
         destruct (StringKeyed_insert_inv _ _ _ Hnone Hk') as (_ & _ & Hx').
         exact (Hx Hx'). }
    destruct i as [s| | | |]; cbn [assertString res_bind].
    2-5: right; split; [| reflexivity]; intros Hk';
         destruct (StringKeyed_insert_inv _ _ _ Hnone Hk') as (_ & (s & Hs) & _);
         discriminate.
    left. split.
    + inversion Hk as [m0 Hall]; subst m0. constructor. intros k v Hl.
      destruct (decide (KString s = k)) as [<- | Hne].
      * rewrite lookup_insert_eq in Hl. injection Hl as <-.
        split; [eexists; reflexivity | assumption].
      * rewrite lookup_insert_ne in Hl by assumption. apply Hall. assumption.
    + exists (<[s := x']> out). split; [reflexivity |].
      inversion Hn as [m0 out0 Hsome Hnone']; subst m0 out0. constructor.
      * intros s0 v Hl. destruct (decide (s = s0)) as [<- | Hne].
        -- rewrite lookup_insert_eq in Hl. injection Hl as <-.
           exists x'. split; [apply lookup_insert_eq | assumption].
        -- rewrite lookup_insert_ne in Hl by congruence.
           destruct (Hsome _ _ Hl) as (v' & Hv' & Hnv).
           exists v'. split; [| assumption].
           rewrite lookup_insert_ne by assumption. assumption.
      * intros s0 Hl. destruct (decide (s = s0)) as [<- | Hne].
        -- rewrite lookup_insert_eq in Hl. discriminate.
        -- rewrite lookup_insert_ne in Hl by congruence.
           rewrite lookup_insert_ne by assumption. apply Hnone'. assumption.
Qed.

Lemma remapRecord_outcome (m : RawRecord) : remapOutcome m.
Proof.
  remember (rawSize (VRawMap m)) as n eqn:Hn.
  revert m Hn. induction n as [n IH] using lt_wf_ind. intros m ->.
  apply remapLoop_outcome. intros k v Hl.
  apply remapValue_outcome. intros m' ->.
  apply (IH (rawSize (VRawMap m'))); [| reflexivity].
  eapply rawSize_lookup. eassumption.
Qed.

(** C7 (amended). [remapRecord] returns exactly on the records whose keys
    are strings, at the top level and in every mapping that is itself a
    value of such a mapping; there it yields a string-keyed record in which
    byte-sequence values are converted to text, such nested mappings are
    normalized in turn, and every other value, a list with all it contains
    included, is passed through unchanged.  On any other record the
    assertion [k.(string)] panics. *)
Theorem remapRecord_normalizes (m : RawRecord) :
  (StringKeyed m -> exists out, remapRecord m = Ret out /\ Normalizes m out) /\
  (~ StringKeyed m -> remapRecord m = Panic TypeAssertion) /\
  (forall out, remapRecord m = Ret out -> StringKeyed m /\ Normalizes m out).
Proof.
  destruct (remapRecord_outcome m) as [(Hk & out & Hr & Hn) | (Hk & Hr)].
  - split; [intros _; exists out; split; assumption |].
    split; [intros Hnk; contradiction |].
    intros out' Hr'. rewrite Hr in Hr'. injection Hr' as <-. split; assumption.
  - split; [intros Hk'; contradiction |].
    split; [intros _; assumption |].
    intros out Hr'. rewrite Hr in Hr'. discriminate.
Qed.

(** C7, as stated, fails: a record with an integer key makes [remapRecord]
    panic, and a mapping inside a list is passed through with its
    non-string key and its byte-sequence value as they are. *)
Lemma remapRecord_normalizes_counterexample :
  remapRecord {[ KInt64 1 := VString "x" ]} = Panic TypeAssertion /\
  remapRecord {[ KString "tags" := VSlice [VRawMap {[ KInt64 1 := VBytes "x" ]}] ]}
    = Ret {[ "tags" := VSlice [VRawMap {[ KInt64 1 := VBytes "x" ]}] ]}.
Proof. split; reflexivity. Qed.

Example remapRecord_exampleRawRecord :
  remapRecord exampleRawRecord
    = Ret {[ "log" := VString "service started";
             "tags" := VSlice [VRawMap {[ KString "env" := VString "prod" ]}] ]}.
Proof. reflexivity. Qed.

(** ** Timestamp normalization *)

(** C6. For every int64 raw timestamp [t], [timeToMillis] picks the unit by
    magnitude: below 2000000000 the value is seconds and is multiplied by
    1000 (an int64 product, exact whenever [t * 1000] fits); below
    2000000000000 it is returned unchanged; below 2000000000000000 it is
    microseconds and is divided by 1000; otherwise it is nanoseconds and is
    divided by 1000000.  1555612951 gives 1555612951000 and 1555612951401
    is returned as it is. *)
Theorem timeToMillis_brackets (t : Z) :
  Int64.in_range t ->
  (t < 2000000000 -> timeToMillis t = Int64.mul t 1000) /\
  (-9223372036854775 <= t < 2000000000 -> timeToMillis t = t * 1000) /\
  (2000000000 <= t < 2000000000000 -> timeToMillis t = t) /\
  (2000000000000 <= t < 2000000000000000 -> timeToMillis t = t `quot` 1000) /\
  (2000000000000000 <= t -> timeToMillis t = t `quot` 1000000) /\
  timeToMillis 1555612951 = 1555612951000 /\
  timeToMillis 1555612951401 = 1555612951401.
Proof.
  intros Hr. unfold timeToMillis, maxMicroseconds, maxMilliseconds, maxSeconds.
  repeat split; try reflexivity; intros Ht.
  - destruct (Z.ltb_spec t 2000000000); [reflexivity | lia].
  - destruct (Z.ltb_spec t 2000000000); [| lia].
    unfold Int64.mul. apply Int64_wrap_id.
    unfold Int64.in_range, Int64.min_int, Int64.max_int. lia.
  - destruct (Z.ltb_spec t 2000000000); [lia |].
    destruct (Z.ltb_spec t (2000000000 * 1000)); [reflexivity | lia].
  - destruct (Z.ltb_spec t 2000000000); [lia |].
    destruct (Z.ltb_spec t (2000000000 * 1000)); [lia |].
    destruct (Z.ltb_spec t (2000000000 * 1000 * 1000)); [| lia].
    apply Int64_div_exact; [lia | assumption | lia].
  - destruct (Z.ltb_spec t 2000000000); [lia |].
    destruct (Z.ltb_spec t (2000000000 * 1000)); [lia |].
    destruct (Z.ltb_spec t (2000000000 * 1000 * 1000)); [lia |].
    apply Int64_div_exact; [lia | assumption | lia].
Qed.

(** Below the range where the product fits, the seconds branch wraps. *)
Example timeToMillis_wraps :
  timeToMillis Int64.min_int = 0 /\
  timeToMillis (Int64.of_uint64 (2 ^ 63 + 1)) = 1000.
Proof. split; reflexivity. Qed.

Lemma timeToMillis_brackets_witness :
  Int64.in_range 1555612951401123 /\
  timeToMillis 1555612951401123 = 1555612951401.
Proof.
  assert (Hr : Int64.in_range 1555612951401123).
  { unfold Int64.in_range, Int64.min_int, Int64.max_int. lia. }
  split; [exact Hr |].
  destruct (timeToMillis_brackets 1555612951401123 Hr) as (_ & _ & _ & Hus & _).
  rewrite Hus by lia. reflexivity.
Defined.

(** ** Initialization *)

Lemma isEmptyString_true s : isEmptyString s = true <-> s = "".
Proof.
  unfold isEmptyString. destruct s; simpl; split; intros; congruence.
Qed.

Lemma isEmptyString_false s : isEmptyString s = false <-> s <> "".
Proof.
  unfold isEmptyString. destruct s; simpl; split; intros; congruence.
Qed.

Lemma FLBPluginConfigKey_absent (ctx : gmap string string) key :
  ctx !! key = None -> FLBPluginConfigKey ctx key = "".
Proof. unfold FLBPluginConfigKey. intros ->. reflexivity. Qed.

Section InitProperties.

Context `{Encoding}.
Variable VERSION : string.

(** C8. Initialization returns [FLB_ERROR] exactly when the credential
    configuration is invalid (neither [apiKey] nor [licenseKey] given, or
    both given), leaving the buffer manager as it was; otherwise it
    returns [FLB_OK] with the one credential that was given selected. *)
Theorem FLBPluginInit_credentials (ctx : gmap string string) (s : State) :
  let a := FLBPluginConfigKey ctx "apiKey" in
  let l := FLBPluginConfigKey ctx "licenseKey" in
  let out := FLBPluginInit VERSION ctx s in
  (fst out = Ret FLB_ERROR <-> (a = "" /\ l = "") \/ (a <> "" /\ l <> "")) /\
  (fst out = Ret FLB_OK <-> (a <> "" /\ l = "") \/ (a = "" /\ l <> "")) /\
  (fst out = Ret FLB_ERROR -> bufferManager (snd out) = bufferManager s) /\
  (fst out = Ret FLB_OK ->
     let c := config (bufferManager (snd out)) in
     apiKey c = a /\ licenseKey c = l /\
     (useApiKey c = true <-> a <> "") /\ (useApiKey c = false <-> l <> "")).
Proof.
  intros a l out. subst out. unfold FLBPluginInit. fold a l.
  destruct (isEmptyString a) eqn:Ea, (isEmptyString l) eqn:El; cbn;
    first [apply isEmptyString_true in Ea | apply isEmptyString_false in Ea];
    first [apply isEmptyString_true in El | apply isEmptyString_false in El];
    unfold FLB_ERROR, FLB_OK;
    repeat split; intros; try tauto; try discriminate;
    try (exfalso; intuition congruence); intuition congruence.
Qed.

(** C9 (amended). When initialization succeeds, every optional key that
    is absent takes its default: [maxBufferSize] 256000, [maxRecords]
    1024, [maxTimeBetweenFlushes] 5000, [endpoint] the public ingestion
    URL, [reportingSourceType] "fluent-bit", and, when both reporting
    source keys are absent, [reportingSourceVersion] the build version. *)
Theorem FLBPluginInit_defaults (ctx : gmap string string) (s : State) :
  let out := FLBPluginInit VERSION ctx s in
  fst out = Ret FLB_OK ->
  let c := config (bufferManager (snd out)) in
  (ctx !! "endpoint" = None ->
     endpoint c = "https://log-api.newrelic.com/log/v1") /\
  (ctx !! "maxBufferSize" = None -> maxBufferSize c = 256000) /\
  (ctx !! "maxRecords" = None -> maxRecords c = 1024) /\
  (ctx !! "maxTimeBetweenFlushes" = None -> maxTimeBetweenFlushes c = 5000) /\
  (ctx !! "reportingSourceType" = None ->
     reportingSourceType c = "fluent-bit") /\
  (ctx !! "reportingSourceType" = None ->
   ctx !! "reportingSourceVersion" = None ->
     reportingSourceVersion c = VERSION).
Proof.
  intros out. subst out. unfold FLBPluginInit.
  destruct (isEmptyString (FLBPluginConfigKey ctx "apiKey")),
           (isEmptyString (FLBPluginConfigKey ctx "licenseKey"));
    cbn; unfold FLB_ERROR, FLB_OK; intros Hok; try discriminate;
    repeat split; intros;
    repeat match goal with
           | Habs : ctx !! _ = None |- _ =>
               rewrite (FLBPluginConfigKey_absent _ _ Habs); clear Habs
           end; reflexivity.
Qed.

End InitProperties.

(** Both credentials set: initialization refuses and says why. *)
Example FLBPluginInit_both_credentials :
  let ctx : gmap string string :=
    {[ "apiKey" := "insert-key"; "licenseKey" := "0123456789abcdef" ]} in
  let out := FLBPluginInit "1.1.0" ctx (initialState exampleClock) in
  fst out = Ret FLB_ERROR /\
  logged (snd out) = ["[ERROR] only one of apiKey or licenseKey can be specified"].
Proof. split; reflexivity. Qed.

(** Numeric keys go through [strconv.ParseInt] with the error dropped: a
    value that does not parse leaves 0. *)
Example ParseInt_samples :
  strconv.ParseInt "256000" = (256000, None) /\
  strconv.ParseInt "-5" = (-5, None) /\
  strconv.ParseInt "+17" = (17, None) /\
  strconv.ParseInt "256k" = (0, Some strconv.ErrSyntax) /\
  strconv.ParseInt "-" = (0, Some strconv.ErrSyntax) /\
  strconv.ParseInt "9223372036854775808" = (9223372036854775807, Some strconv.ErrRange) /\
  strconv.ParseInt "-9223372036854775808" = (-9223372036854775808, None).
Proof. repeat split; reflexivity. Qed.

Example FLBPluginInit_unparsable_size :
  let ctx : gmap string string :=
    {[ "licenseKey" := "0123456789abcdef"; "maxBufferSize" := "256k" ]} in
  let out := FLBPluginInit "1.1.0" ctx (initialState exampleClock) in
  fst out = Ret FLB_OK /\
  maxBufferSize (config (bufferManager (snd out))) = 0.
Proof. split; reflexivity. Qed.

Lemma FLBPluginInit_defaults_witness :
  let ctx : gmap string string := {[ "licenseKey" := "0123456789abcdef" ]} in
  let c := config (bufferManager
                     (snd (FLBPluginInit "1.1.0" ctx (initialState exampleClock)))) in
  ctx !! "maxBufferSize" = None /\ maxBufferSize c = 256000 /\
  reportingSourceVersion c = "1.1.0".
Proof.
  intros ctx c.
  assert (Hok : fst (FLBPluginInit "1.1.0" ctx (initialState exampleClock))
                = Ret FLB_OK) by reflexivity.
  pose proof (FLBPluginInit_defaults "1.1.0" ctx (initialState exampleClock) Hok)
    as (_ & Hsize & _ & _ & _ & Hversion).
  split; [reflexivity |].
  split; [apply Hsize | apply Hversion]; reflexivity.
Defined.

(** C9, as stated, fails: with [reportingSourceType] absent the type is
    "fluent-bit", not "log-shipper". *)
Lemma FLBPluginInit_defaults_counterexample :
  let ctx : gmap string string := {[ "licenseKey" := "0123456789abcdef" ]} in
  let out := FLBPluginInit "1.1.0" ctx (initialState exampleClock) in
  ctx !! "reportingSourceType" = None /\
  fst out = Ret FLB_OK /\
  reportingSourceType (config (bufferManager (snd out))) = "fluent-bit" /\
  reportingSourceType (config (bufferManager (snd out))) <> "log-shipper".
Proof. repeat split; try reflexivity. discriminate. Qed.

(** The version default is keyed on [reportingSourceType]: a configuration
    that sets the type and leaves the version out gets an empty version. *)
Example FLBPluginInit_version_without_default :
  let ctx : gmap string string :=
    {[ "licenseKey" := "0123456789abcdef"; "reportingSourceType" := "agent" ]} in
  let out := FLBPluginInit "1.1.0" ctx (initialState exampleClock) in
  ctx !! "reportingSourceVersion" = None /\
  reportingSourceVersion (config (bufferManager (snd out))) = "".
Proof. split; reflexivity. Qed.

(** ** Payload packager *)

Lemma segment_refl {A} (l : list A) : segment l l.
Proof. exists [], []. rewrite app_nil_r. reflexivity. Qed.

Lemma segment_take {A} (seg l : list A) n : segment seg (take n l) -> segment seg l.
Proof.
  intros (pre & post & Heq). exists pre, (post ++ drop n l).
  rewrite <- (take_drop n l) at 1. rewrite Heq.
  rewrite <- !app_assoc. reflexivity.
Qed.

Lemma segment_drop {A} (seg l : list A) n : segment seg (drop n l) -> segment seg l.
Proof.
  intros (pre & post & Heq). exists (take n l ++ pre), post.
  rewrite <- (take_drop n l) at 1. rewrite Heq.
  rewrite <- !app_assoc. reflexivity.
Qed.

Lemma segment_singleton {A} (seg : list A) x :
  segment seg [x] -> seg = [] \/ seg = [x].
Proof.
  intros (pre & post & Heq).
  destruct pre as [|y pre]; simpl in Heq.
  - destruct seg as [|z seg]; [left; reflexivity |].
    simpl in Heq. injection Heq as -> Hnil.
    symmetry in Hnil. apply app_eq_nil in Hnil as [-> _]. right. reflexivity.
  - injection Heq as -> Hnil. symmetry in Hnil.
    apply app_eq_nil in Hnil as [_ Hnil]. apply app_eq_nil in Hnil as [-> _].
    left. reflexivity.
Qed.

Section PackagerProperties.

Context `{Encoding}.

Lemma dispatched_refl s : dispatched s s [].
Proof. unfold dispatched. rewrite app_nil_r. tauto. Qed.

Lemma dispatched_trans s1 s2 s3 c1 c2 :
  dispatched s1 s2 c1 -> dispatched s2 s3 c2 -> dispatched s1 s3 (c1 ++ c2).
Proof.
  unfold dispatched. intros (Hb & Hu & Hc & Hl & Hg) (Hb' & Hu' & Hc' & Hl' & Hg').
  rewrite Hb', Hu', Hc', Hl', Hg', Hg, app_assoc. tauto.
Qed.

Lemma packagePayload_no_error records data err :
  packagePayload records <> Ret (data, Some err).
Proof.
  unfold packagePayload.
  destruct (json_Marshal records); [| discriminate].
  destruct (gzip_Write _); [| discriminate].
  destruct (gzip_Flush _); [| discriminate].
  destruct (gzip_Close _); discriminate.
Qed.

Lemma packagePayload_not_OutOfFuel records : packagePayload records <> OutOfFuel.
Proof.
  unfold packagePayload.
  destruct (json_Marshal records); [| discriminate].
  destruct (gzip_Write _); [| discriminate].
  destruct (gzip_Flush _); [| discriminate].
  destruct (gzip_Close _); discriminate.
Qed.

(** A packaged buffer decompresses to the serialized records. *)
Lemma packagePayload_carries records data :
  packagePayload records = Ret (data, None) -> carries data records.
Proof.
  intros Hp. split; [assumption |]. revert Hp. unfold packagePayload.
  destruct (json_Marshal records) as [d|] eqn:Hm; [| discriminate].
  destruct (gzip_Write d) as [g|] eqn:Hw; [| discriminate].
  destruct (gzip_Flush g) as [g'|] eqn:Hf; [| discriminate].
  destruct (gzip_Close g') as [b|] eqn:Hc; [| discriminate].
  intros [= <-]. exists d. split; [reflexivity |].
  pose proof (gunzip_gzip _ _ _ _ Hw Hf Hc) as Hg.
  split; [exact Hg |]. unfold decodeChunk. rewrite Hg. reflexivity.
Qed.

(** The packaged empty list decodes to the empty list. *)
Lemma packagePayload_decode data :
  packagePayload [] = Ret (data, None) -> decodeChunk data = Some [].
Proof.
  intros Hp. destruct (packagePayload_carries _ _ Hp) as (_ & d & Hm & _ & ->).
  apply json_Unmarshal_Marshal_nil. assumption.
Qed.

Lemma Forall2_packs_carries cap (parts : list (list Record_)) (chunks : list Buffer) :
  Forall2 (packs cap) parts chunks -> Forall2 carries chunks parts.
Proof.
  intros Hf. induction Hf as [|part b parts chunks [Hp _] _ IH]; constructor.
  - apply packagePayload_carries. assumption.
  - assumption.
Qed.

(** One step of [prepare], by the result of [packagePayload]. *)
Lemma prepare_panic fuel records s p :
  packagePayload records = Panic p ->
  prepare (S fuel) records s = (Panic p, s).
Proof. intros Hp. cbn. unfold bind, lift, getBufferManager. rewrite Hp. reflexivity. Qed.

Lemma prepare_send fuel records s data :
  packagePayload records = Ret (data, None) ->
  Buffer_Cap data < maxBufferSize (config (bufferManager s)) ->
  prepare (S fuel) records s = goMakeRequest data s.
Proof.
  intros Hp Hcap. cbn. unfold bind, lift, getBufferManager. rewrite Hp.
  destruct (Z.geb_spec (Buffer_Cap data) (maxBufferSize (config (bufferManager s))));
    [lia | reflexivity].
Qed.

Lemma prepare_split fuel records s data :
  packagePayload records = Ret (data, None) ->
  maxBufferSize (config (bufferManager s)) <= Buffer_Cap data ->
  prepare (S fuel) records s =
    bind (prepare fuel (take (length records / 2) records))
         (fun _ => prepare fuel (drop (length records / 2) records)) s.
Proof.
  intros Hp Hcap. cbn. unfold bind at 1 2. unfold lift, getBufferManager.
  rewrite Hp.
  destruct (Z.geb_spec (Buffer_Cap data) (maxBufferSize (config (bufferManager s))));
    [reflexivity | lia].
Qed.

(** Whatever [prepare] does, and however far it gets, it only starts
    goroutines, each with the packaged form of a run of [records] whose
    buffer capacity is under the cap. *)
Lemma prepare_dispatches fuel : forall records s,
  exists chunks,
    dispatched s (snd (prepare fuel records s)) chunks /\
    Forall (fun b => exists seg, segment seg records /\
              packs (maxBufferSize (config (bufferManager s))) seg b) chunks.
Proof.
  induction fuel as [|fuel IH]; intros records s.
  - exists []. split; [apply dispatched_refl | constructor].
  - destruct (packagePayload records) as [[data [err|]] | p |] eqn:Hp.
    + exfalso. eapply packagePayload_no_error; eassumption.
    + destruct (Z.lt_ge_cases (Buffer_Cap data)
                  (maxBufferSize (config (bufferManager s)))) as [Hlt|Hge].
      * rewrite (prepare_send _ _ _ _ Hp Hlt). exists [data]. split.
        { unfold dispatched. cbn. tauto. }
        constructor; [| constructor].
        exists records. split; [apply segment_refl | split; assumption].
      * rewrite (prepare_split _ _ _ _ Hp Hge). unfold bind.
        destruct (IH (take (length records / 2) records) s) as (c1 & Hd1 & Hf1).
        assert (Hf1' : Forall (fun b => exists seg, segment seg records /\
            packs (maxBufferSize (config (bufferManager s))) seg b) c1).
        { eapply Forall_impl; [exact Hf1 |]. cbn.
          intros b (seg & Hseg & Hpk). exists seg.
          split; [eapply segment_take; eassumption | assumption]. }
        destruct (prepare fuel (take (length records / 2) records) s)
          as [[[] | p | ] s1] eqn:H1; cbn in Hd1.
        2, 3: exists c1; split; assumption.
        destruct (IH (drop (length records / 2) records) s1) as (c2 & Hd2 & Hf2).
        exists (c1 ++ c2). split; [eapply dispatched_trans; eassumption |].
        apply Forall_app. split; [assumption |].
        eapply Forall_impl; [exact Hf2 |]. cbn.
        intros b (seg & Hseg & Hpk). exists seg.
        split; [eapply segment_drop; eassumption |].
        destruct Hd1 as (Hbm & _). rewrite <- Hbm. assumption.
    + rewrite (prepare_panic _ _ _ _ Hp). exists [].
      split; [apply dispatched_refl | constructor].
    + exfalso. eapply packagePayload_not_OutOfFuel; eassumption.
Qed.

(** When [prepare] returns, the payloads it sent are the packaged forms of
    consecutive parts of [records] that together make up [records]. *)
Lemma prepare_returns fuel : forall records s,
  fst (prepare fuel records s) = Ret tt ->
  exists chunks parts,
    dispatched s (snd (prepare fuel records s)) chunks /\
    Forall2 (packs (maxBufferSize (config (bufferManager s)))) parts chunks /\
    concat parts = records.
Proof.
  induction fuel as [|fuel IH]; intros records s; [discriminate |].
  destruct (packagePayload records) as [[data [err|]] | p |] eqn:Hp.
  - exfalso. eapply packagePayload_no_error; eassumption.
  - destruct (Z.lt_ge_cases (Buffer_Cap data)
                (maxBufferSize (config (bufferManager s)))) as [Hlt|Hge].
    + rewrite (prepare_send _ _ _ _ Hp Hlt). intros _.
      exists [data], [records]. split; [unfold dispatched; cbn; tauto |].
      split; [| cbn; apply app_nil_r].
      constructor; [split; assumption | constructor].
    + rewrite (prepare_split _ _ _ _ Hp Hge). unfold bind.
      pose proof (IH (take (length records / 2) records) s) as IH1.
      destruct (prepare fuel (take (length records / 2) records) s)
        as [[[] | p | ] s1] eqn:H1; cbn; try discriminate.
      intros H2.
      destruct (IH1 eq_refl) as (c1 & p1 & Hd1 & Hf1 & Hc1). cbn in Hd1.
      destruct (IH _ _ H2) as (c2 & p2 & Hd2 & Hf2 & Hc2).
      exists (c1 ++ c2), (p1 ++ p2).
      split; [eapply dispatched_trans; eassumption |].
      split.
      * apply Forall2_app; [assumption |].
        destruct Hd1 as (Hbm & _). rewrite <- Hbm. assumption.
      * rewrite concat_app, Hc1, Hc2. apply take_drop.
  - rewrite (prepare_panic _ _ _ _ Hp). discriminate.
  - exfalso. eapply packagePayload_not_OutOfFuel; eassumption.
Qed.

Lemma packable_segment cap seg records :
  segment seg records -> packable cap records -> packable cap seg.
Proof.
  intros (pre & post & ->) Hp seg' (pre' & post' & ->). apply Hp.
  exists (pre ++ pre'), (post' ++ post). rewrite <- !app_assoc. reflexivity.
Qed.

Lemma prepare_terminates fuel : forall records s,
  (length records < fuel)%nat ->
  packable (maxBufferSize (config (bufferManager s))) records ->
  fst (prepare fuel records s) = Ret tt.
Proof.
  induction fuel as [|fuel IH]; intros records s Hfuel Hpack; [lia |].
  destruct (Hpack records (segment_refl _)) as (data & Hp & Hsmall).
  destruct (Z.lt_ge_cases (Buffer_Cap data)
              (maxBufferSize (config (bufferManager s)))) as [Hlt|Hge].
  - rewrite (prepare_send _ _ _ _ Hp Hlt). reflexivity.
  - assert (Hlen : (2 <= length records)%nat).
    { destruct (le_lt_dec (length records) 1) as [Hle|]; [| lia].
      specialize (Hsmall Hle). lia. }
    pose proof (Nat.div_lt (length records) 2 ltac:(lia) ltac:(lia)) as Hhalf.
    assert (Hpos : (1 <= length records / 2)%nat).
    { apply Nat.div_le_lower_bound; lia. }
    rewrite (prepare_split _ _ _ _ Hp Hge). unfold bind.
    assert (H1 : fst (prepare fuel (take (length records / 2) records) s) = Ret tt).
    { apply IH.
      - rewrite length_take. lia.
      - eapply packable_segment; [| exact Hpack].
        eapply segment_take. apply segment_refl. }
    destruct (prepare_dispatches fuel (take (length records / 2) records) s)
      as (c1 & (Hbm & _) & _).
    destruct (prepare fuel (take (length records / 2) records) s)
      as [r1 s1]; cbn in H1, Hbm. subst r1.
    apply IH.
    + rewrite length_drop. lia.
    + rewrite Hbm. eapply packable_segment; [| exact Hpack].
      eapply segment_drop. apply segment_refl.
Qed.

(** A single record whose packaged buffer reaches the cap: [prepare] keeps
    splitting it into nothing and itself. *)
Lemma prepare_singleton_split fuel r data s :
  packagePayload [r] = Ret (data, None) ->
  maxBufferSize (config (bufferManager s)) <= Buffer_Cap data ->
  prepare (S fuel) [r] s = bind (prepare fuel []) (fun _ => prepare fuel [r]) s.
Proof. intros Hp Hge. rewrite (prepare_split _ _ _ _ Hp Hge). reflexivity. Qed.

Lemma prepare_singleton_stuck r data :
  packagePayload [r] = Ret (data, None) ->
  forall fuel s,
    maxBufferSize (config (bufferManager s)) <= Buffer_Cap data ->
    fst (prepare fuel [r] s) <> Ret tt.
Proof.
  intros Hp. induction fuel as [|fuel IH]; intros s Hge; [discriminate |].
  rewrite (prepare_singleton_split _ _ _ _ Hp Hge). unfold bind.
  destruct (prepare_dispatches fuel [] s) as (c1 & (Hbm & _) & _).
  destruct (prepare fuel [] s) as [[[] | p | ] s1]; cbn in *; try discriminate.
  apply IH. rewrite Hbm. assumption.
Qed.

(** ... and every payload sent on the way is the packaged empty list. *)
Lemma prepare_singleton_sends_empty r data fuel s :
  packagePayload [r] = Ret (data, None) ->
  maxBufferSize (config (bufferManager s)) <= Buffer_Cap data ->
  exists chunks,
    dispatched s (snd (prepare fuel [r] s)) chunks /\
    Forall (fun b => decodeChunk b = Some []) chunks.
Proof.
  intros Hp Hge.
  destruct (prepare_dispatches fuel [r] s) as (chunks & Hd & Hf).
  exists chunks. split; [assumption |].
  eapply Forall_impl; [exact Hf |]. cbn.
  intros b (seg & Hseg & Hpk & Hcap).
  apply segment_singleton in Hseg as [-> | ->].
  - apply packagePayload_decode. assumption.
  - rewrite Hp in Hpk. injection Hpk as ->. lia.
Qed.

(** C2. Packaging should terminate on every record list, a list of length 1
    (or 0) being sent whatever its size.  [prepare] has no such base case:
    for a single record whose packaged buffer reaches the cap, no amount of
    fuel lets [prepare] return. *)
Theorem prepare_single_oversized_never_returns r data s :
  packagePayload [r] = Ret (data, None) ->
  maxBufferSize (config (bufferManager s)) <= Buffer_Cap data ->
  forall fuel, fst (prepare fuel [r] s) <> Ret tt.
Proof. intros Hp Hge fuel. eapply prepare_singleton_stuck; eassumption. Qed.

(** C3 (amended). Every payload [prepare] hands to a goroutine, on any
    record list and however far the recursion gets, has compressed size
    strictly under [maxBufferSize].  The cap is compared against the
    capacity of the buffer holding the compressed bytes, which is at least
    their length: a packaged list is sent whole when that capacity is under
    the cap; when it reaches the cap the list is split at its midpoint,
    [prepare] doing on it what it does on the first half and then, if that
    returns, on the second half, and the list is never sent whole. *)
Theorem prepare_chunks_under_cap fuel records s :
  let cap := maxBufferSize (config (bufferManager s)) in
  (exists chunks,
     goroutines (snd (prepare fuel records s)) = goroutines s ++ chunks /\
     Forall (fun b => Buffer_Len b <= Buffer_Cap b < cap) chunks) /\
  (forall data, packagePayload records = Ret (data, None) ->
     (Buffer_Cap data < cap ->
        fst (prepare (S fuel) records s) = Ret tt /\
        goroutines (snd (prepare (S fuel) records s)) = goroutines s ++ [data]) /\
     (cap <= Buffer_Cap data ->
        prepare (S fuel) records s
          = bind (prepare fuel (take (length records / 2) records))
                 (fun _ => prepare fuel (drop (length records / 2) records)) s /\
        forall chunks,
          goroutines (snd (prepare (S fuel) records s)) = goroutines s ++ chunks ->
          ~ In data chunks)).
Proof.
  intros cap. split.
  - destruct (prepare_dispatches fuel records s) as (chunks & Hd & Hf).
    exists chunks. split; [apply Hd |].
    eapply Forall_impl; [exact Hf |]. cbn.
    intros b (seg & _ & _ & Hcap). pose proof (Buffer_Len_Cap b). lia.
  - intros data Hp. split.
    + intros Hlt. rewrite (prepare_send _ _ _ _ Hp Hlt). cbn. tauto.
    + intros Hge. split; [apply (prepare_split _ _ _ _ Hp Hge) |].
      intros chunks Hg Hin.
      destruct (prepare_dispatches (S fuel) records s) as (chunks' & Hd & Hf).
      destruct Hd as (_ & _ & _ & _ & Hg'). rewrite Hg' in Hg.
      apply app_inv_head in Hg. subst chunks'.
      rewrite Forall_forall in Hf.
      destruct (Hf data) as (seg & _ & _ & Hcap).
      { apply list_elem_of_In. assumption. }
      fold cap in Hcap. lia.
Qed.

(** C4 (amended). For every record list all of whose runs can be
    packaged, with runs of at most one record under the cap, [prepare]
    returns (any fuel above the length is enough), and each payload it sent
    is the packaged form of a run of consecutive records, decompressing to
    the document [json.Marshal] writes for that run; the runs,
    concatenated in the order sent, give the list back, and in any other
    order a permutation of it: the split loses no record and duplicates
    none. *)
Theorem prepare_lossless fuel records s :
  packable (maxBufferSize (config (bufferManager s))) records ->
  (length records < fuel)%nat ->
  exists chunks parts,
    fst (prepare fuel records s) = Ret tt /\
    goroutines (snd (prepare fuel records s)) = goroutines s ++ chunks /\
    Forall2 carries chunks parts /\
    concat parts = records /\
    (forall parts', parts' ≡ₚ parts -> concat parts' ≡ₚ records).
Proof.
  intros Hpack Hfuel.
  pose proof (prepare_terminates fuel records s Hfuel Hpack) as Hret.
  destruct (prepare_returns fuel records s Hret) as (chunks & parts & Hd & Hf & Hc).
  exists chunks, parts. split; [assumption |].
  split; [apply Hd |]. split; [| split; [assumption |]].
  - eapply Forall2_packs_carries. eassumption.
  - intros parts' Hperm. rewrite <- Hc. clear -Hperm.
    induction Hperm as [|x l l' _ IH|x y l|l l' l'' _ IH1 _ IH2]; cbn.
    + reflexivity.
    + rewrite IH. reflexivity.
    + rewrite !app_assoc. apply Permutation_app_tail, Permutation_app_comm.
    + etransitivity; eassumption.
Qed.

(** C10. When a single record's packaged buffer reaches the cap and the
    packaged empty list is under it, the midpoint split of the
    one-element list has an empty first half, and that half is packaged
    and handed to a goroutine: a payload that decodes to an empty record
    array is sent. *)
Theorem prepare_single_oversized_sends_empty_payload r data empty s fuel :
  packagePayload [r] = Ret (data, None) ->
  maxBufferSize (config (bufferManager s)) <= Buffer_Cap data ->
  packagePayload [] = Ret (empty, None) ->
  Buffer_Cap empty < maxBufferSize (config (bufferManager s)) ->
  take (length [r] / 2) [r] = [] /\
  In empty (goroutines (snd (prepare (S (S fuel)) [r] s))) /\
  decodeChunk empty = Some [].
Proof.
  intros Hp Hge Hp0 Hlt. split; [reflexivity |].
  split; [| apply packagePayload_decode; assumption].
  rewrite (prepare_singleton_split _ _ _ _ Hp Hge). unfold bind.
  rewrite (prepare_send _ _ _ _ Hp0 Hlt). unfold goMakeRequest. lazy beta iota.
  match goal with |- In _ (goroutines (snd (prepare _ _ ?s1))) =>
    destruct (prepare_dispatches (S fuel) [r] s1) as (chunks & Hd & _)
  end.
  destruct Hd as (_ & _ & _ & _ & ->). cbn.
  apply in_or_app. left. apply in_or_app. right. left. reflexivity.
Qed.

End PackagerProperties.

(** ** Batch accumulator *)

Section AccumulatorProperties.

Context `{Encoding}.

Lemma sendRecords_unfold fuel s :
  sendRecords fuel s =
    bind (prepare fuel (buffer (bufferManager s))) (fun _ => ret tt) (swapped s).
Proof. reflexivity. Qed.

(** A flush leaves an empty batch behind and never yields the nil channel
    of a plain insertion. *)
Lemma sendRecords_flushes fuel s :
  let out := bind (sendRecords fuel) (fun c => ret (Some c)) s in
  fst out <> Ret None /\
  bufferManager (snd out) = bufferManager (swapped s) /\
  logged (snd out) = logged s.
Proof.
  assert (Hout : bind (sendRecords fuel) (fun c => ret (Some c)) s =
            match prepare fuel (buffer (bufferManager s)) (swapped s) with
            | (Ret _, s1) => (Ret (Some tt), s1)
            | (Panic p, s1) => (Panic p, s1)
            | (OutOfFuel, s1) => (OutOfFuel, s1)
            end).
  { unfold bind at 1. rewrite sendRecords_unfold. unfold bind, ret.
    destruct (prepare fuel (buffer (bufferManager s)) (swapped s))
      as [[[] | p | ] s1]; reflexivity. }
  cbv zeta. rewrite Hout. clear Hout.
  destruct (prepare_dispatches fuel (buffer (bufferManager s)) (swapped s))
    as (chunks & (Hbm & _ & _ & Hl & _) & _).
  destruct (prepare fuel (buffer (bufferManager s)) (swapped s))
    as [[[] | p | ] s1]; cbn [fst snd] in *;
    (split; [discriminate | split; assumption]).
Qed.

Lemma shouldSend_spec s :
  shouldSend s =
    if Z.of_nat (length (buffer (bufferManager s)))
         >=? maxRecords (config (bufferManager s))
    then (Ret true, s)
    else (Ret (Int64.sub (nowMillis s) (lastFlushTime (bufferManager s))
                 >? maxTimeBetweenFlushes (config (bufferManager s))),
          ticked s).
Proof.
  unfold shouldSend, bind, getBufferManager.
  destruct (_ >=? _); reflexivity.
Qed.

Lemma addRecord_unfold fuel record s :
  addRecord fuel record s =
    match shouldSend (appended s record) with
    | (Ret send, s2) =>
        (if send then bind (sendRecords fuel) (fun c => ret (Some c))
         else ret None) s2
    | (Panic p, s2) => (Panic p, s2)
    | (OutOfFuel, s2) => (OutOfFuel, s2)
    end.
Proof. reflexivity. Qed.

Lemma addRecord_by_count fuel record s :
  maxRecords (config (bufferManager s))
    <= Z.of_nat (length (buffer (bufferManager s) ++ [record])) ->
  addRecord fuel record s =
    bind (sendRecords fuel) (fun c => ret (Some c)) (appended s record).
Proof.
  intros Hc. rewrite addRecord_unfold, shouldSend_spec. cbn [appended bufferManager buffer config].
  destruct (Z.geb_spec (Z.of_nat (length (buffer (bufferManager s) ++ [record])))
              (maxRecords (config (bufferManager s)))); [reflexivity | lia].
Qed.

Lemma addRecord_by_time fuel record s :
  Z.of_nat (length (buffer (bufferManager s) ++ [record]))
    < maxRecords (config (bufferManager s)) ->
  maxTimeBetweenFlushes (config (bufferManager s))
    < Int64.sub (nowMillis s) (lastFlushTime (bufferManager s)) ->
  addRecord fuel record s =
    bind (sendRecords fuel) (fun c => ret (Some c)) (ticked (appended s record)).
Proof.
  intros Hc Ht. rewrite addRecord_unfold, shouldSend_spec.
  change (nowMillis (appended s record)) with (nowMillis s).
  cbn [appended bufferManager buffer config lastFlushTime].
  destruct (Z.geb_spec (Z.of_nat (length (buffer (bufferManager s) ++ [record])))
              (maxRecords (config (bufferManager s)))); [lia |].
  destruct (Z.gtb_spec (Int64.sub (nowMillis s) (lastFlushTime (bufferManager s)))
              (maxTimeBetweenFlushes (config (bufferManager s)))); [reflexivity | lia].
Qed.

Lemma addRecord_no_flush fuel record s :
  ~ flushDue s record ->
  addRecord fuel record s = (Ret None, ticked (appended s record)).
Proof.
  unfold flushDue. intros Hn. rewrite addRecord_unfold, shouldSend_spec.
  change (nowMillis (appended s record)) with (nowMillis s).
  cbn [appended bufferManager buffer config lastFlushTime].
  destruct (Z.geb_spec (Z.of_nat (length (buffer (bufferManager s) ++ [record])))
              (maxRecords (config (bufferManager s)))); [lia |].
  destruct (Z.gtb_spec (Int64.sub (nowMillis s) (lastFlushTime (bufferManager s)))
              (maxTimeBetweenFlushes (config (bufferManager s)))); [lia | reflexivity].
Qed.

Lemma flushDue_dec s record : flushDue s record \/ ~ flushDue s record.
Proof. unfold flushDue. lia. Qed.

(** C1 (amended). An insertion triggers a flush if and only if, right
    after the record is appended, the batch length is >= [maxRecords] or
    the time elapsed since the last flush is strictly greater than
    [maxTimeBetweenFlushes].  A flush leaves an empty batch and a flush
    time read from the clock during the insertion; when neither condition
    holds, [addRecord] returns nil, keeps the batch with the record
    appended and the last flush time, and starts no goroutine. *)
Theorem addRecord_flush_iff fuel record s :
  let bm := bufferManager s in
  let count := Z.of_nat (length (buffer bm ++ [record])) in
  let elapsed := Int64.sub (nowMillis s) (lastFlushTime bm) in
  let due := maxRecords (config bm) <= count \/
             maxTimeBetweenFlushes (config bm) < elapsed in
  let out := addRecord fuel record s in
  (fst out <> Ret None <-> due) /\
  (due ->
     buffer (bufferManager (snd out)) = [] /\
     (lastFlushTime (bufferManager (snd out)) = nowMillis s \/
      lastFlushTime (bufferManager (snd out)) = nowMillis (ticked s))) /\
  (~ due ->
     fst out = Ret None /\
     buffer (bufferManager (snd out)) = buffer bm ++ [record] /\
     lastFlushTime (bufferManager (snd out)) = lastFlushTime bm /\
     goroutines (snd out) = goroutines s).
Proof.
  cbv zeta. change (_ <= _ \/ _ < _) with (flushDue s record).
  assert (Hflush : flushDue s record ->
            fst (addRecord fuel record s) <> Ret None /\
            buffer (bufferManager (snd (addRecord fuel record s))) = [] /\
            (lastFlushTime (bufferManager (snd (addRecord fuel record s)))
               = nowMillis s \/
             lastFlushTime (bufferManager (snd (addRecord fuel record s)))
               = nowMillis (ticked s))).
  { intros Hdue.
    destruct (Z.le_gt_cases (maxRecords (config (bufferManager s)))
                (Z.of_nat (length (buffer (bufferManager s) ++ [record]))))
      as [Hc | Hc].
    - rewrite (addRecord_by_count _ _ _ Hc).
      destruct (sendRecords_flushes fuel (appended s record)) as (Hne & Hbm & _).
      rewrite Hbm. split; [assumption |]. split; [reflexivity | left; reflexivity].
    - destruct Hdue as [Hdue | Hdue]; [lia |].
      rewrite (addRecord_by_time _ _ _ Hc Hdue).
      destruct (sendRecords_flushes fuel (ticked (appended s record)))
        as (Hne & Hbm & _).
      rewrite Hbm. split; [assumption |]. split; [reflexivity | right; reflexivity]. }
  assert (Hquiet : ~ flushDue s record ->
            addRecord fuel record s = (Ret None, ticked (appended s record)))
    by apply addRecord_no_flush.
  split; [| split].
  - split.
    + intros Hne. destruct (flushDue_dec s record) as [|Hn]; [assumption |].
      rewrite (Hquiet Hn) in Hne. contradiction.
    + intros Hdue. apply Hflush. assumption.
  - intros Hdue. apply Hflush. assumption.
  - intros Hn. rewrite (Hquiet Hn). cbn. tauto.
Qed.

(** C5 (amended). [addRecord] returns normally when the insertion triggers
    no flush.  When it triggers one and serializing or compressing the
    batch fails, [packagePayload] panics with the error and the panic
    passes through [prepare], [sendRecords] and [addRecord] to the caller:
    nothing is logged, and the batch has already been swapped out.  A
    batch holding a [map[interface{}]interface{}] anywhere is such a
    batch. *)
Theorem addRecord_panics_on_packaging_error fuel record s :
  let bm := bufferManager s in
  let batch := buffer bm ++ [record] in
  let elapsed := Int64.sub (nowMillis s) (lastFlushTime bm) in
  let due := maxRecords (config bm) <= Z.of_nat (length batch) \/
             maxTimeBetweenFlushes (config bm) < elapsed in
  let out := addRecord (S fuel) record s in
  (~ due -> fst out = Ret None) /\
  (due -> forall p, packagePayload batch = Panic p ->
     fst out = Panic p /\
     logged (snd out) = logged s /\
     buffer (bufferManager (snd out)) = []) /\
  (due -> (exists r, In r batch /\ hasRawMap (VMap r) = true) ->
     exists err, fst out = Panic (ErrorValue err)).
Proof.
  cbv zeta. change (_ <= _ \/ _ < _) with (flushDue s record).
  assert (Hpanic : flushDue s record -> forall p,
            packagePayload (buffer (bufferManager s) ++ [record]) = Panic p ->
            fst (addRecord (S fuel) record s) = Panic p /\
            logged (snd (addRecord (S fuel) record s)) = logged s /\
            buffer (bufferManager (snd (addRecord (S fuel) record s))) = []).
  { intros Hdue p Hp.
    assert (Hrun : forall s2,
              buffer (bufferManager s2) = buffer (bufferManager s) ++ [record] ->
              bind (sendRecords (S fuel)) (fun c => ret (Some c)) s2
                = (Panic p, swapped s2)).
    { intros s2 Hb. unfold bind at 1. rewrite sendRecords_unfold. unfold bind.
      rewrite Hb, (prepare_panic _ _ _ _ Hp). reflexivity. }
    destruct (Z.le_gt_cases (maxRecords (config (bufferManager s)))
                (Z.of_nat (length (buffer (bufferManager s) ++ [record]))))
      as [Hc | Hc].
    - rewrite (addRecord_by_count _ _ _ Hc), (Hrun (appended s record) eq_refl).
      cbn. tauto.
    - destruct Hdue as [Hdue | Hdue]; [lia |].
      rewrite (addRecord_by_time _ _ _ Hc Hdue),
        (Hrun (ticked (appended s record)) eq_refl). cbn. tauto. }
  split; [| split].
  - intros Hn. rewrite (addRecord_no_flush _ _ _ Hn). reflexivity.
  - assumption.
  - intros Hdue (r & Hin & Hraw).
    destruct (json_Marshal_unsupported _ r Hin Hraw) as (err & Herr).
    exists err. apply (Hpanic Hdue). unfold packagePayload. rewrite Herr. reflexivity.
Qed.

End AccumulatorProperties.

(** ** The accumulator on sample data *)

(** C1, as stated, fails: with [maxRecords] 2 and [maxTimeBetweenFlushes]
    5000, a first record inserted exactly 5000 ms after the last flush is
    kept in the batch and no flush is triggered. *)
Lemma addRecord_flush_iff_counterexample :
  let s := exampleState (exampleConfig 256000 2 5000) [] 1555612946401 in
  let r := exampleRecord "first" in
  let out := addRecord 10 r s in
  let elapsed := Int64.sub (nowMillis s) (lastFlushTime (bufferManager s)) in
  elapsed = 5000 /\
  elapsed >= maxTimeBetweenFlushes (config (bufferManager s)) /\
  fst out = Ret None /\
  buffer (bufferManager (snd out)) = [r] /\
  goroutines (snd out) = [].
Proof. vm_compute. repeat split; discriminate. Qed.

(** C5, as stated, fails: a record with a mapping inside a list comes out of
    [prepareRecord] with that mapping untouched; inserted with [maxRecords]
    1 it triggers a flush, serialization fails, and [addRecord] panics. *)
Lemma addRecord_panics_counterexample :
  let cfg := exampleConfig 256000 1 5000 in
  let s := exampleState cfg [] 1555612951401 in
  exists record,
    prepareRecord exampleRawRecord (TsUint64 1555612951) cfg = Ret record /\
    fst (addRecord 10 record s)
      = Panic (ErrorValue "json: unsupported type: map[interface {}]interface {}") /\
    logged (snd (addRecord 10 record s)) = [].
Proof. eexists. split; [reflexivity |]. split; reflexivity. Qed.

(** A record inserted below both thresholds stays in the batch; the next
    one reaches [maxRecords] = 2 and both leave in one payload. *)
Example addRecord_flushes_on_count :
  let s := exampleState (exampleConfig 256000 2 5000) [] 1555612951401 in
  let r1 := exampleRecord "first" in
  let r2 := exampleRecord "second" in
  let out1 := addRecord 5 r1 s in
  let out2 := addRecord 5 r2 (snd out1) in
  fst out1 = Ret None /\
  buffer (bufferManager (snd out1)) = [r1] /\
  fst out2 = Ret (Some tt) /\
  buffer (bufferManager (snd out2)) = [] /\
  goroutines (snd out2) = [[r1; r2]].
Proof. repeat split; reflexivity. Qed.

(** With six seconds between clock readings, the second insertion finds
    6000 ms elapsed against [maxTimeBetweenFlushes] = 5000 and flushes the
    batch of two. *)
Example addRecord_flushes_on_time :
  let s :=
    {| bufferManager :=
         {| config := exampleConfig 256000 1024 5000; buffer := [];
            lastFlushTime := 1555612951401 |};
       unixNano := slowClock; clockReads := 0; goroutines := []; logged := [] |} in
  let r1 := exampleRecord "first" in
  let r2 := exampleRecord "second" in
  let out1 := addRecord 5 r1 s in
  let out2 := addRecord 5 r2 (snd out1) in
  fst out1 = Ret None /\
  fst out2 = Ret (Some tt) /\
  goroutines (snd out2) = [[r1; r2]] /\
  lastFlushTime (bufferManager (snd out2)) = 1555612951401 + 12000.
Proof. repeat split; reflexivity. Qed.

(** The same panic seen from the host entry point. *)
Example FLBPluginFlush_panics :
  let s := exampleState (exampleConfig 256000 1 5000) [] 1555612951401 in
  fst (FLBPluginFlush 10 [(TsUint64 1555612951, exampleRawRecord)] s)
    = Panic (ErrorValue "json: unsupported type: map[interface {}]interface {}").
Proof. reflexivity. Qed.

(** At shutdown a waiting batch is flushed whatever the thresholds. *)
Example FLBPluginExit_flushes :
  let r := exampleRecord "last" in
  let s := exampleState (exampleConfig 256000 1024 5000) [r] 1555612951401 in
  fst (FLBPluginExit 5 s) = Ret FLB_OK /\
  goroutines (snd (FLBPluginExit 5 s)) = [[r]] /\
  buffer (bufferManager (snd (FLBPluginExit 5 s))) = [].
Proof. repeat split; reflexivity. Qed.

(** ** The packager on sample data *)

Lemma prepare_single_oversized_never_returns_witness :
  let r := exampleRecord longMessage in
  let s := exampleState (exampleConfig 100 1024 5000) [] 0 in
  packagePayload [r] = Ret ([r], None) /\
  maxBufferSize (config (bufferManager s)) <= Buffer_Cap [r] /\
  fst (prepare 1000 [r] s) <> Ret tt.
Proof.
  intros r s.
  assert (Hp : packagePayload [r] = Ret ([r], None)) by reflexivity.
  assert (Hge : maxBufferSize (config (bufferManager s)) <= Buffer_Cap [r])
    by (vm_compute; discriminate).
  split; [exact Hp |]. split; [exact Hge |].
  exact (prepare_single_oversized_never_returns r [r] s Hp Hge 1000).
Defined.

(** The run behind it: with fuel 30 the recursion is still going, having
    sent the packaged empty list 29 times and the record never. *)
Example prepare_single_oversized_run :
  let r := exampleRecord longMessage in
  let s := exampleState (exampleConfig 100 1024 5000) [] 0 in
  fst (prepare 30 [r] s) = OutOfFuel /\
  goroutines (snd (prepare 30 [r] s)) = replicate 29 [].
Proof. split; vm_compute; reflexivity. Qed.

(** C3, as stated, fails: a batch of two short records whose compressed
    size is under the cap is split in two instead of sent whole.  Either
    record alone packages into the 64 bytes the buffer starts with, under
    the cap of 100, and is sent; the two together need 76 bytes, for which
    the buffer has grown, and what it has grown to reaches the cap.  (The
    sizes are those of the [Framed] encoding, which doubles what it is
    given; a [bytes.Buffer] that outgrows its first 64 bytes holds 128 or
    more.) *)
Lemma prepare_chunks_under_cap_counterexample :
  let records := [exampleRecord diskMessage; exampleRecord cpuMessage] in
  let s := exampleState (exampleConfig 100 1024 5000) [] 0 in
  packagePayload records = Ret (records, None) /\
  Buffer_Len records = 76 /\
  Buffer_Cap records = 152 /\
  Buffer_Len records < maxBufferSize (config (bufferManager s)) /\
  Buffer_Cap [exampleRecord diskMessage] = 64 /\
  Buffer_Cap [exampleRecord cpuMessage] = 64 /\
  fst (prepare 3 records s) = Ret tt /\
  goroutines (snd (prepare 3 records s))
    = [[exampleRecord diskMessage]; [exampleRecord cpuMessage]] /\
  ~ (exists fuel, In records (goroutines (snd (prepare fuel records s)))).
Proof.
  intros records s. do 8 (split; [reflexivity |]).
  intros (fuel & Hin).
  destruct (prepare_dispatches fuel records s)
    as (chunks & (_ & _ & _ & _ & Hg) & Hall).
  rewrite Hg in Hin. cbn in Hin.
  rewrite Forall_forall in Hall.
  apply list_elem_of_In, Hall in Hin. destruct Hin as (seg & _ & _ & Hcap).
  vm_compute in Hcap. discriminate.
Qed.

(** A single record in the same position is never sent at all: compressed
    size 77 under a cap of 100, buffer capacity 154. *)
Example prepare_single_under_cap_never_sent :
  let r := exampleRecord mediumMessage in
  let s := exampleState (exampleConfig 100 1024 5000) [] 0 in
  Buffer_Len [r] = 77 /\
  Buffer_Cap [r] = 154 /\
  ~ (exists fuel b, In b (goroutines (snd (prepare fuel [r] s))) /\
                    decodeChunk b = Some [r]).
Proof.
  intros r s. do 2 (split; [reflexivity |]).
  intros (fuel & b & Hin & Hdec).
  destruct (prepare_singleton_sends_empty r ([r] : @Buffer Framed.encoding) fuel s eq_refl)
    as (chunks & (_ & _ & _ & _ & Hg) & Hall).
  { vm_compute. discriminate. }
  rewrite Hg in Hin. cbn in Hin.
  rewrite Forall_forall in Hall.
  apply list_elem_of_In, Hall in Hin. rewrite Hin in Hdec. discriminate.
Qed.

(** C4, as stated, fails.  A batch with a record that cannot be serialized
    makes the flush panic before any payload is sent; and flushing one
    record whose packaged buffer reaches the cap never sends a payload that
    decodes to that record. *)
Lemma prepare_lossless_counterexample :
  let s := exampleState (exampleConfig 100 1024 5000) [] 0 in
  let unsupported := exampleUnsupportedRecord in
  let r := exampleRecord longMessage in
  (fst (prepare 5 [exampleRecord "first"; unsupported] s)
     = Panic (ErrorValue "json: unsupported type: map[interface {}]interface {}") /\
   goroutines (snd (prepare 5 [exampleRecord "first"; unsupported] s)) = []) /\
  ~ (exists fuel parts,
       Forall2 (fun b part => decodeChunk b = Some part)
               (goroutines (snd (prepare fuel [r] s))) parts /\
       concat parts ≡ₚ [r]).
Proof.
  intros s unsupported r. split; [split; reflexivity |].
  intros (fuel & parts & Hdec & Hperm).
  destruct (prepare_singleton_sends_empty r ([r] : @Buffer Framed.encoding) fuel s eq_refl)
    as (chunks & (_ & _ & _ & _ & Hg) & Hall).
  { vm_compute. discriminate. }
  rewrite Hg in Hdec. cbn in Hdec.
  assert (Hnil : concat parts = []).
  { clear -Hdec Hall. induction Hdec as [|b part chunks parts Hb _ IH]; [reflexivity |].
    apply Forall_cons in Hall as [Hb' Hall]. cbn in Hb, Hb'.
    assert (part = []) as -> by congruence. cbn. apply IH. assumption. }
  rewrite Hnil in Hperm. apply Permutation_nil_l in Hperm. discriminate.
Qed.

Lemma prepare_lossless_witness :
  let records := [exampleRecord mediumMessage; exampleRecord longMessage] in
  let s := exampleState (exampleConfig 300 1024 5000) [] 0 in
  fst (prepare 3 records s) = Ret tt /\
  exists chunks parts,
    goroutines (snd (prepare 3 records s)) = chunks /\
    Forall2 carries chunks parts /\
    concat parts = records.
Proof.
  intros records s.
  assert (Hpack : packable (maxBufferSize (config (bufferManager s))) records).
  { intros seg (pre & post & Heq).
    assert (Hin : forall x, In x seg -> In x records).
    { intros x Hx. rewrite Heq. apply in_or_app. right.
      apply in_or_app. left. assumption. }
    assert (Hok : existsb (fun r => hasRawMap (VMap r)) seg = false).
    { apply not_true_iff_false. intros Hex.
      apply existsb_exists in Hex as (x & Hx & Hraw).
      destruct (Hin x Hx) as [<- | [<- | []]]; vm_compute in Hraw; discriminate. }
    exists seg. split.
    - unfold packagePayload. cbn. unfold Framed.Marshal. rewrite Hok. reflexivity.
    - intros Hlen. destruct seg as [|x [|y seg]]; [reflexivity | | cbn in Hlen; lia].
      destruct (Hin x (or_introl eq_refl)) as [<- | [<- | []]]; reflexivity. }
  destruct (prepare_lossless 3 records s Hpack ltac:(cbn; lia))
    as (chunks & parts & Hret & Hg & Hdec & Hcat & _).
  split; [exact Hret |].
  exists chunks, parts. split; [exact Hg |]. split; assumption.
Defined.

Lemma prepare_single_oversized_sends_empty_payload_witness :
  let r := exampleRecord longMessage in
  let s := exampleState (exampleConfig 100 1024 5000) [] 0 in
  In [] (goroutines (snd (prepare 2 [r] s))) /\
  decodeChunk ([] : @Buffer Framed.encoding) = Some [].
Proof.
  intros r s.
  destruct (prepare_single_oversized_sends_empty_payload
              r ([r] : @Buffer Framed.encoding) ([] : @Buffer Framed.encoding)
              s 0 eq_refl)
    as (_ & Hin & Hdec).
  - vm_compute. discriminate.
  - reflexivity.
  - reflexivity.
  - split; assumption.
Defined.

(** * Further properties *)

(** ** Timestamps *)

Lemma timeToMillis_seconds t :
  -9223372036854775 <= t < 2000000000 -> timeToMillis t = t * 1000.
Proof.
  intros Ht. unfold timeToMillis, maxSeconds.
  destruct (Z.ltb_spec t 2000000000); [| lia].
  unfold Int64.mul. apply Int64_wrap_id.
  unfold Int64.in_range, Int64.min_int, Int64.max_int. lia.
Qed.

Lemma timeToMillis_millis t :
  2000000000 <= t < 2000000000000 -> timeToMillis t = t.
Proof.
  intros Ht. unfold timeToMillis, maxMilliseconds, maxSeconds.
  destruct (Z.ltb_spec t 2000000000); [lia |].
  destruct (Z.ltb_spec t (2000000000 * 1000)); [reflexivity | lia].
Qed.

Lemma timeToMillis_micros t :
  2000000000000 <= t < 2000000000000000 -> timeToMillis t = t / 1000.
Proof.
  intros Ht. unfold timeToMillis, maxMicroseconds, maxMilliseconds, maxSeconds.
  destruct (Z.ltb_spec t 2000000000); [lia |].
  destruct (Z.ltb_spec t (2000000000 * 1000)); [lia |].
  destruct (Z.ltb_spec t (2000000000 * 1000 * 1000)); [| lia].
  rewrite Int64_div_exact; [apply Z.quot_div_nonneg; lia | lia | | lia].
  unfold Int64.in_range, Int64.min_int, Int64.max_int. lia.
Qed.

Lemma timeToMillis_nanos t :
  2000000000000000 <= t <= Int64.max_int -> timeToMillis t = t / 1000000.
Proof.
  unfold Int64.max_int.
  intros Ht. unfold timeToMillis, maxMicroseconds, maxMilliseconds, maxSeconds.
  destruct (Z.ltb_spec t 2000000000); [lia |].
  destruct (Z.ltb_spec t (2000000000 * 1000)); [lia |].
  destruct (Z.ltb_spec t (2000000000 * 1000 * 1000)); [lia |].
  rewrite Int64_div_exact; [apply Z.quot_div_nonneg; lia | lia | | lia].
  unfold Int64.in_range, Int64.min_int, Int64.max_int. lia.
Qed.

(** X1. A raw timestamp [t] with 2000000 <= t < 2*10^18 is normalized to a
    value of the millisecond bracket, from 2*10^9 up to 2*10^12, and
    normalizing that value again leaves it as it is. *)
Theorem timeToMillis_lands_in_millis (t : Z) :
  2000000 <= t < 2000000000000000000 ->
  2000000000 <= timeToMillis t < 2000000000000 /\
  timeToMillis (timeToMillis t) = timeToMillis t.
Proof.
  intros Ht.
  assert (Hb : 2000000000 <= timeToMillis t < 2000000000000).
  { destruct (Z.lt_ge_cases t 2000000000).
    { rewrite timeToMillis_seconds by lia. lia. }
    destruct (Z.lt_ge_cases t 2000000000000).
    { rewrite timeToMillis_millis by lia. lia. }
    destruct (Z.lt_ge_cases t 2000000000000000).
    { rewrite timeToMillis_micros by lia.
      split; [apply Z.div_le_lower_bound | apply Z.div_lt_upper_bound]; lia. }
    rewrite timeToMillis_nanos by (unfold Int64.max_int; lia).
    split; [apply Z.div_le_lower_bound | apply Z.div_lt_upper_bound]; lia. }
  split; [exact Hb |]. apply timeToMillis_millis. exact Hb.
Qed.

Lemma timeToMillis_lands_in_millis_witness :
  timeToMillis 1555612951401123456 = 1555612951401 /\
  timeToMillis (timeToMillis 1555612951401123456) = 1555612951401.
Proof.
  destruct (timeToMillis_lands_in_millis 1555612951401123456 ltac:(lia)) as [_ Hfix].
  rewrite Hfix. split; reflexivity.
Defined.

(** Outside that range a second normalization changes the value again. *)
Example timeToMillis_not_idempotent :
  timeToMillis 5 = 5000 /\ timeToMillis (timeToMillis 5) = 5000000.
Proof. split; reflexivity. Qed.

(** X2. Within one unit bracket normalization keeps the order of
    timestamps, strictly so for seconds (down to the least value whose
    product fits) and for milliseconds. *)
Theorem timeToMillis_monotone (t1 t2 : Z) :
  t1 <= t2 ->
  (-9223372036854775 <= t1 /\ t2 < 2000000000) \/
  (2000000000 <= t1 /\ t2 < 2000000000000) \/
  (2000000000000 <= t1 /\ t2 < 2000000000000000) \/
  (2000000000000000 <= t1 /\ t2 <= Int64.max_int) ->
  timeToMillis t1 <= timeToMillis t2 /\
  (t1 < t2 -> t2 < 2000000000000 -> timeToMillis t1 < timeToMillis t2).
Proof.
  intros Hle [[? ?] | [[? ?] | [[? ?] | [? ?]]]].
  - rewrite !timeToMillis_seconds by lia. lia.
  - rewrite !timeToMillis_millis by lia. lia.
  - rewrite !timeToMillis_micros by lia.
    split; [apply Z.div_le_mono; lia | lia].
  - rewrite !timeToMillis_nanos by lia.
    split; [apply Z.div_le_mono; lia | lia].
Qed.

Lemma timeToMillis_monotone_witness :
  timeToMillis 1555612951 < timeToMillis 1555612952.
Proof.
  apply (timeToMillis_monotone 1555612951 1555612952); lia.
Defined.

(** Across a bracket boundary the order is not kept. *)
Example timeToMillis_boundary :
  timeToMillis 1999999999 = 1999999999000 /\ timeToMillis 2000000000 = 2000000000.
Proof. split; reflexivity. Qed.

(** ** Record preparation *)

Lemma Normalizes_lookup (raw : RawRecord) (mid : Record_) s :
  Normalizes raw mid ->
  match raw !! KString s with
  | Some v => exists v', NormalizesValue v v' /\ mid !! s = Some v'
  | None => mid !! s = None
  end.
Proof.
  intros Hn. inversion Hn as [m0 out0 Hsome Hnone]; subst m0 out0.
  destruct (raw !! KString s) as [v|] eqn:Hl.
  - destruct (Hsome s v Hl) as (v' & Hv' & Hnv). exists v'. split; assumption.
  - apply Hnone. assumption.
Qed.

(** [prepareRecord] returns only where [remapRecord] does. *)
Lemma prepareRecord_returns raw ts cfg out :
  prepareRecord raw ts cfg = Ret out ->
  exists mid,
    StringKeyed raw /\ Normalizes raw mid /\ remapRecord raw = Ret mid.
Proof.
  intros Hp. destruct (remapRecord_outcome raw) as [(Hk & mid & Hr & Hn) | (Hk & Hr)].
  - exists mid. split; [assumption |]. split; assumption.
  - unfold prepareRecord in Hp. rewrite Hr in Hp. discriminate.
Qed.

Ltac prepareRecord_cases Hp mid Hn :=
  let Hk := fresh "Hk" in
  let Hr := fresh "Hr" in
  let Heq := fresh "Heq" in
  destruct (prepareRecord_returns _ _ _ _ Hp) as (mid & Hk & Hn & Hr);
  unfold prepareRecord in Hp; rewrite Hr in Hp; cbn [res_bind] in Hp;
  injection Hp as Heq; subst.

(** X3. [prepareRecord] returns exactly on the records whose keys are
    strings (it panics on the type assertion otherwise), and what it
    returns always carries [nr.reportingSource] with the configured type
    and version, whatever the record held under that key, and never a
    [log] field. *)
Theorem prepareRecord_stamps raw ts cfg :
  (StringKeyed raw ->
     exists out, prepareRecord raw ts cfg = Ret out /\
       out !! "nr.reportingSource"
         = Some (VStringMap (<["version" := reportingSourceVersion cfg]>
                             (<["type" := reportingSourceType cfg]> ∅))) /\
       out !! "log" = None) /\
  (~ StringKeyed raw -> prepareRecord raw ts cfg = Panic TypeAssertion).
Proof.
  destruct (remapRecord_outcome raw) as [(Hk & mid & Hr & Hn) | (Hk & Hr)].
  - split; [intros _ | intros Hnk; contradiction].
    unfold prepareRecord. rewrite Hr. cbn [res_bind].
    eexists. split; [reflexivity |]. split; [apply lookup_insert_eq |].
    rewrite lookup_insert_ne by discriminate.
    match goal with |- context [match ?m !! "log" with _ => _ end] =>
      destruct (m !! "log") eqn:Hlog end.
    + apply lookup_delete_eq.
    + assumption.
  - split; [intros Hk'; contradiction | intros _].
    unfold prepareRecord. rewrite Hr. reflexivity.
Qed.

(** How the fields of what [prepareRecord] returns relate to the remapped
    record [mid]. *)
Lemma prepareRecord_fields raw ts cfg out :
  prepareRecord raw ts cfg = Ret out ->
  exists mid,
    StringKeyed raw /\ Normalizes raw mid /\
    (forall s, s <> "timestamp" -> s <> "log" -> s <> "message" ->
               s <> "nr.reportingSource" -> out !! s = mid !! s) /\
    out !! "message"
      = match mid !! "log" with Some val => Some val | None => mid !! "message" end.
Proof.
  intros Hp. prepareRecord_cases Hp mid Hn.
  exists mid. split; [assumption |]. split; [assumption |].
  assert (Hts : forall k, k <> "timestamp" ->
            match ts with
            | TsFLBTime unixNano => <["timestamp" := VInt64 (timeToMillis unixNano)]> mid
            | TsUint64 u => <["timestamp" := VInt64 (timeToMillis (Int64.of_uint64 u))]> mid
            | TsOther => mid
            end !! k = mid !! k).
  { intros k Hne. destruct ts; [| | reflexivity];
      rewrite lookup_insert_ne by congruence; reflexivity. }
  split.
  - intros s H1 H2 H3 H4. rewrite lookup_insert_ne by congruence.
    rewrite (Hts "log") by discriminate.
    destruct (mid !! "log"); [| apply Hts; assumption].
    rewrite lookup_delete_ne by congruence.
    rewrite lookup_insert_ne by congruence. apply Hts. assumption.
  - rewrite lookup_insert_ne by discriminate.
    rewrite (Hts "log") by discriminate.
    destruct (mid !! "log"); [| apply Hts; discriminate].
    rewrite lookup_delete_ne by discriminate. apply lookup_insert_eq.
Qed.

(** X4. The [log] field is renamed: when the record has a [log] field, its
    normalized value is what [message] holds afterwards, replacing a
    [message] field of the record if there was one; without a [log] field
    the record's own [message], if any, is kept. *)
Theorem prepareRecord_message raw ts cfg out :
  prepareRecord raw ts cfg = Ret out ->
  match raw !! KString "log" with
  | Some v => exists v', NormalizesValue v v' /\ out !! "message" = Some v'
  | None =>
      match raw !! KString "message" with
      | Some v => exists v', NormalizesValue v v' /\ out !! "message" = Some v'
      | None => out !! "message" = None
      end
  end.
Proof.
  intros Hp. destruct (prepareRecord_fields _ _ _ _ Hp) as (mid & _ & Hn & _ & Hmsg).
  pose proof (Normalizes_lookup raw mid "log" Hn) as Hlog.
  pose proof (Normalizes_lookup raw mid "message" Hn) as Hmessage.
  rewrite Hmsg. destruct (raw !! KString "log") as [v|].
  - destruct Hlog as (v' & Hnv & ->). exists v'. split; [assumption | reflexivity].
  - rewrite Hlog. exact Hmessage.
Qed.

(** X5. A timestamp of a recognized type is stored in milliseconds under
    [timestamp], replacing a [timestamp] field of the record; with any
    other timestamp type nothing is stored and the record's own
    [timestamp] field, if any, is kept. *)
Theorem prepareRecord_timestamp raw ts cfg out :
  prepareRecord raw ts cfg = Ret out ->
  match ts with
  | TsFLBTime unixNano => out !! "timestamp" = Some (VInt64 (timeToMillis unixNano))
  | TsUint64 u =>
      out !! "timestamp" = Some (VInt64 (timeToMillis (Int64.of_uint64 u)))
  | TsOther =>
      match raw !! KString "timestamp" with
      | Some v => exists v', NormalizesValue v v' /\ out !! "timestamp" = Some v'
      | None => out !! "timestamp" = None
      end
  end.
Proof.
  intros Hp. prepareRecord_cases Hp mid Hn.
  pose proof (Normalizes_lookup raw mid "timestamp" Hn) as Hts.
  rewrite lookup_insert_ne by discriminate.
  match goal with |- context [match ?m !! "log" with _ => _ end] =>
    assert (Hsame : match m !! "log" with
                    | Some val => delete "log" (<["message" := val]> m)
                    | None => m
                    end !! "timestamp" = m !! "timestamp")
  end.
  { match goal with |- context [match ?m !! "log" with _ => _ end] =>
      destruct (m !! "log") end; [| reflexivity].
    rewrite lookup_delete_ne by discriminate.
    rewrite lookup_insert_ne by discriminate. reflexivity. }
  destruct ts; rewrite Hsame; [apply lookup_insert_eq | apply lookup_insert_eq | exact Hts].
Qed.

(** X6. Every other field of the record comes out under the same key with
    its normalized value, and no field is invented. *)
Theorem prepareRecord_other_fields raw ts cfg out s :
  prepareRecord raw ts cfg = Ret out ->
  s <> "timestamp" -> s <> "log" -> s <> "message" -> s <> "nr.reportingSource" ->
  match raw !! KString s with
  | Some v => exists v', NormalizesValue v v' /\ out !! s = Some v'
  | None => out !! s = None
  end.
Proof.
  intros Hp H1 H2 H3 H4.
  destruct (prepareRecord_fields _ _ _ _ Hp) as (mid & _ & Hn & Hsame & _).
  rewrite (Hsame s H1 H2 H3 H4). apply Normalizes_lookup. assumption.
Qed.

Lemma prepareRecord_message_witness :
  exists out,
    prepareRecord exampleRawRecord (TsUint64 1555612951)
      (exampleConfig 256000 1024 5000) = Ret out /\
    exists v', NormalizesValue (VBytes "service started") v' /\
               out !! "message" = Some v'.
Proof.
  eexists. split; [reflexivity |].
  exact (prepareRecord_message exampleRawRecord (TsUint64 1555612951)
           (exampleConfig 256000 1024 5000) _ eq_refl).
Defined.

Lemma prepareRecord_timestamp_witness :
  exists out,
    prepareRecord exampleRawRecord (TsUint64 1555612951)
      (exampleConfig 256000 1024 5000) = Ret out /\
    out !! "timestamp" = Some (VInt64 (timeToMillis (Int64.of_uint64 1555612951))).
Proof.
  eexists. split; [reflexivity |].
  exact (prepareRecord_timestamp exampleRawRecord (TsUint64 1555612951)
           (exampleConfig 256000 1024 5000) _ eq_refl).
Defined.

Lemma prepareRecord_other_fields_witness :
  exists out,
    prepareRecord exampleRawRecord (TsUint64 1555612951)
      (exampleConfig 256000 1024 5000) = Ret out /\
    (exists v',
       NormalizesValue (VSlice [VRawMap {[ KString "env" := VString "prod" ]}]) v' /\
       out !! "tags" = Some v') /\
    out !! "host" = None.
Proof.
  eexists. split; [reflexivity |]. split.
  - exact (prepareRecord_other_fields exampleRawRecord (TsUint64 1555612951)
             (exampleConfig 256000 1024 5000) _ "tags" eq_refl
             ltac:(discriminate) ltac:(discriminate) ltac:(discriminate)
             ltac:(discriminate)).
  - exact (prepareRecord_other_fields exampleRawRecord (TsUint64 1555612951)
             (exampleConfig 256000 1024 5000) _ "host" eq_refl
             ltac:(discriminate) ltac:(discriminate) ltac:(discriminate)
             ltac:(discriminate)).
Defined.

(** The sample record, prepared. *)
Example prepareRecord_exampleRawRecord :
  prepareRecord exampleRawRecord (TsUint64 1555612951) (exampleConfig 256000 1024 5000)
    = Ret {[ "message" := VString "service started";
             "tags" := VSlice [VRawMap {[ KString "env" := VString "prod" ]}];
             "timestamp" := VInt64 1555612951000;
             "nr.reportingSource" :=
               VStringMap {[ "type" := "fluent-bit"; "version" := "1.1.0" ]} ]}.
Proof. reflexivity. Qed.

(** ** What the serializer will accept *)

Lemma map_fold_orb_true {K} `{Countable K} {V} (f : V -> bool) (m : gmap K V) :
  map_fold (fun _ v acc => f v || acc) false m = true <->
  exists k v, m !! k = Some v /\ f v = true.
Proof.
  apply (map_fold_weak_ind
    (fun (r : bool) (m : gmap K V) =>
       r = true <-> exists k v, m !! k = Some v /\ f v = true)).
  - split; [discriminate |]. intros (k & v & Hl & _).
    rewrite lookup_empty in Hl. discriminate.
  - intros i x m' r Hnone IH. rewrite orb_true_iff, IH. split.
    + intros [Hx | (k & v & Hl & Hv)].
      * exists i, x. split; [apply lookup_insert_eq | assumption].
      * exists k, v. split; [| assumption].
        rewrite lookup_insert_ne; [assumption |]. intros ->. congruence.
    + intros (k & v & Hl & Hv). destruct (decide (i = k)) as [-> | Hne].
      * rewrite lookup_insert_eq in Hl. injection Hl as ->. left. assumption.
      * rewrite lookup_insert_ne in Hl by assumption. right. exists k, v. tauto.
Qed.

Lemma hasRawMap_VMap (m : Record_) :
  hasRawMap (VMap m) = true <->
  exists s v, m !! s = Some v /\ hasRawMap v = true.
Proof.
  change (hasRawMap (VMap m))
    with (map_fold (fun (_ : string) v' acc => hasRawMap v' || acc) false m).
  apply map_fold_orb_true.
Qed.

Lemma hidesRawMap_VRawMap (m : RawRecord) :
  hidesRawMap (VRawMap m) = true <->
  exists k v, m !! k = Some v /\ hidesRawMap v = true.
Proof.
  change (hidesRawMap (VRawMap m))
    with (map_fold (fun (_ : Key) v' acc => hidesRawMap v' || acc) false m).
  apply map_fold_orb_true.
Qed.

Lemma Normalizes_hasRawMap (m : RawRecord) : forall out,
  StringKeyed m -> Normalizes m out ->
  hasRawMap (VMap out) = hidesRawMap (VRawMap m).
Proof.
  remember (rawSize (VRawMap m)) as n eqn:Hsize.
  revert m Hsize. induction n as [n IH] using lt_wf_ind. intros m -> out Hk Hn.
  assert (Hval : forall k v v', m !! k = Some v -> NormalizesValue v v' ->
                   hasRawMap v' = hidesRawMap v).
  { intros k v v' Hl Hnv. inversion Hnv as [b | m' out' Hn' | v0 Hnb Hnm]; subst.
    - reflexivity.
    - apply (IH (rawSize (VRawMap m'))); [| reflexivity | | assumption].
      + eapply rawSize_lookup. eassumption.
      + inversion Hk as [m0 Hall]; subst m0.
        destruct (Hall k _ Hl) as [_ Hnested]. apply Hnested. reflexivity.
    - match goal with |- hasRawMap ?x = _ => destruct x end; try reflexivity.
      exfalso. eapply Hnm. reflexivity. }
  apply eq_true_iff_eq. rewrite hasRawMap_VMap, hidesRawMap_VRawMap. split.
  - intros (s & v' & Hl & Hraw).
    pose proof (Normalizes_lookup m out s Hn) as Hs.
    destruct (m !! KString s) as [v|] eqn:Hm; [| congruence].
    destruct Hs as (v'' & Hnv & Hl'). assert (v'' = v') as -> by congruence.
    exists (KString s), v. split; [assumption |].
    rewrite <- (Hval _ _ _ Hm Hnv). assumption.
  - intros (k & v & Hl & Hraw).
    inversion Hk as [m0 Hall]; subst m0.
    destruct (Hall k v Hl) as [(s & ->) _].
    pose proof (Normalizes_lookup m out s Hn) as Hs. rewrite Hl in Hs.
    destruct Hs as (v' & Hnv & Hl').
    exists s, v'. split; [assumption |].
    rewrite (Hval _ _ _ Hl Hnv). assumption.
Qed.

(** X7. What [remapRecord] returns is refused by the serializer exactly
    when the record hides a [map[interface{}]interface{}] where the
    remapping does not reach: inside a list (or inside a string-keyed map),
    at the top level or below directly nested mappings. *)
Theorem remapRecord_serializable (m : RawRecord) (out : Record_) :
  remapRecord m = Ret out ->
  hasRawMap (VMap out) = hidesRawMap (VRawMap m).
Proof.
  intros Hr. destruct (remapRecord_outcome m) as [(Hk & out' & Hr' & Hn) | (_ & Hr')].
  - rewrite Hr in Hr'. injection Hr' as <-. apply Normalizes_hasRawMap; assumption.
  - rewrite Hr in Hr'. discriminate.
Qed.

Lemma remapRecord_serializable_witness :
  exists out,
    remapRecord exampleRawRecord = Ret out /\
    hasRawMap (VMap out) = true.
Proof.
  eexists. split; [exact remapRecord_exampleRawRecord |].
  rewrite (remapRecord_serializable exampleRawRecord _ remapRecord_exampleRawRecord).
  vm_compute. reflexivity.
Defined.

Lemma NormalizesValue_hasRawMap v v' :
  NormalizesValue v v' ->
  (forall m', v = VRawMap m' -> StringKeyed m') ->
  hasRawMap v' = hidesRawMap v.
Proof.
  intros Hnv Hk. inversion Hnv as [b | m' out' Hn' | v0 Hnb Hnm]; subst.
  - reflexivity.
  - apply Normalizes_hasRawMap; [apply Hk; reflexivity | assumption].
  - match goal with |- hasRawMap ?x = _ => destruct x end; try reflexivity.
    exfalso. eapply Hnm. reflexivity.
Qed.

(** A field that hides a raw mapping is still there, hiding it, after
    [prepareRecord], unless it sits under a key that gets overwritten. *)
Lemma prepareRecord_keeps_hidden raw ts cfg out k v :
  prepareRecord raw ts cfg = Ret out ->
  raw !! KString k = Some v -> hidesRawMap v = true ->
  k <> "timestamp" -> k <> "message" -> k <> "nr.reportingSource" ->
  hasRawMap (VMap out) = true.
Proof.
  intros Hp Hl Hraw H1 H2 H3.
  destruct (prepareRecord_fields _ _ _ _ Hp) as (mid & Hk & Hn & Hsame & Hmsg).
  pose proof (Normalizes_lookup raw mid k Hn) as Hmid. rewrite Hl in Hmid.
  destruct Hmid as (v' & Hnv & Hl').
  assert (Hv' : hasRawMap v' = true).
  { rewrite (NormalizesValue_hasRawMap v v' Hnv); [assumption |].
    inversion Hk as [m0 Hall]; subst m0. apply (Hall _ _ Hl). }
  apply hasRawMap_VMap. destruct (decide (k = "log")) as [-> | Hne].
  - exists "message", v'. rewrite Hmsg, Hl'. split; [reflexivity | assumption].
  - exists k, v'. rewrite (Hsame k H1 Hne H2 H3). split; assumption.
Qed.

(** ** Accumulator and packager, end to end *)

Section FlowProperties.

Context `{Encoding}.

Lemma addRecord_due fuel record s :
  flushDue s record ->
  exists s2,
    addRecord fuel record s = bind (sendRecords fuel) (fun c => ret (Some c)) s2 /\
    bufferManager s2 = bufferManager (appended s record) /\
    goroutines s2 = goroutines s /\
    logged s2 = logged s /\
    (nowMillis s2 = nowMillis s \/ nowMillis s2 = nowMillis (ticked s)).
Proof.
  intros Hdue.
  destruct (Z.le_gt_cases (maxRecords (config (bufferManager s)))
              (Z.of_nat (length (buffer (bufferManager s) ++ [record]))))
    as [Hc | Hc].
  - exists (appended s record). rewrite (addRecord_by_count _ _ _ Hc).
    repeat split; try reflexivity. left. reflexivity.
  - destruct Hdue as [Hdue | Hdue]; [lia |].
    exists (ticked (appended s record)). rewrite (addRecord_by_time _ _ _ Hc Hdue).
    repeat split; try reflexivity. right. reflexivity.
Qed.

(** The result and final state of a flush, by what [prepare] did. *)
Lemma sendRecords_run fuel s :
  bind (sendRecords fuel) (fun c => ret (Some c)) s =
    match prepare fuel (buffer (bufferManager s)) (swapped s) with
    | (Ret _, s1) => (Ret (Some tt), s1)
    | (Panic p, s1) => (Panic p, s1)
    | (OutOfFuel, s1) => (OutOfFuel, s1)
    end.
Proof.
  unfold bind at 1. rewrite sendRecords_unfold. unfold bind, ret.
  destruct (prepare fuel (buffer (bufferManager s)) (swapped s))
    as [[[] | p | ] s1]; reflexivity.
Qed.

Lemma addRecord_flush_panics fuel record s p :
  flushDue s record ->
  packagePayload (buffer (bufferManager s) ++ [record]) = Panic p ->
  fst (addRecord (S fuel) record s) = Panic p.
Proof.
  intros Hdue Hp. destruct (addRecord_due (S fuel) record s Hdue)
    as (s2 & -> & Hbm & _).
  rewrite sendRecords_run, Hbm. cbn [appended bufferManager buffer].
  rewrite (prepare_panic _ _ _ _ Hp). reflexivity.
Qed.

Lemma FLBPluginFlush_cons fuel ts raw rest s r :
  prepareRecord raw ts (config (bufferManager s)) = Ret r ->
  FLBPluginFlush fuel ((ts, raw) :: rest) s =
    match addRecord fuel r s with
    | (Ret _, s1) => FLBPluginFlush fuel rest s1
    | (Panic p, s1) => (Panic p, s1)
    | (OutOfFuel, s1) => (OutOfFuel, s1)
    end.
Proof.
  intros Hp. cbn [FLBPluginFlush]. unfold bind at 1 2. unfold getBufferManager, lift.
  rewrite Hp. reflexivity.
Qed.

Lemma FLBPluginFlush_cons_panic fuel ts raw rest s p :
  prepareRecord raw ts (config (bufferManager s)) = Panic p ->
  FLBPluginFlush fuel ((ts, raw) :: rest) s = (Panic p, s).
Proof.
  intros Hp. cbn [FLBPluginFlush]. unfold bind at 1 2. unfold getBufferManager, lift.
  rewrite Hp. reflexivity.
Qed.

(** X8. Ingestion panics on a record with string keys that hides a
    [map[interface{}]interface{}] (inside a list, say) under a key other
    than [timestamp], [message] and [nr.reportingSource], as soon as its
    insertion triggers a flush: the record is prepared and appended, the
    batch is swapped out, and serializing it fails. *)
Theorem FLBPluginFlush_panics_on_hidden_mapping fuel ts raw rest s k v :
  StringKeyed raw ->
  raw !! KString k = Some v -> hidesRawMap v = true ->
  k <> "timestamp" -> k <> "message" -> k <> "nr.reportingSource" ->
  maxRecords (config (bufferManager s))
    <= Z.of_nat (length (buffer (bufferManager s))) + 1 \/
  maxTimeBetweenFlushes (config (bufferManager s))
    < Int64.sub (nowMillis s) (lastFlushTime (bufferManager s)) ->
  exists err,
    fst (FLBPluginFlush (S fuel) ((ts, raw) :: rest) s) = Panic (ErrorValue err).
Proof.
  intros Hk Hl Hraw H1 H2 H3 Hdue.
  destruct (remapRecord_outcome raw) as [(_ & mid & Hr & _) | (Hnk & _)];
    [| contradiction].
  destruct (prepareRecord raw ts (config (bufferManager s))) as [r | p |] eqn:Hp.
  2, 3: unfold prepareRecord in Hp; rewrite Hr in Hp; discriminate.
  pose proof (prepareRecord_keeps_hidden _ _ _ _ _ _ Hp Hl Hraw H1 H2 H3) as Hbad.
  destruct (json_Marshal_unsupported (buffer (bufferManager s) ++ [r]) r) as (err & Herr).
  { apply in_or_app. right. left. reflexivity. }
  { assumption. }
  exists err. rewrite (FLBPluginFlush_cons _ _ _ _ _ _ Hp).
  assert (Hpanic : fst (addRecord (S fuel) r s) = Panic (ErrorValue err)).
  { apply addRecord_flush_panics.
    - unfold flushDue. rewrite length_app. cbn [length].
      destruct Hdue as [Hc | Ht]; [left; lia | right; assumption].
    - unfold packagePayload. rewrite Herr. reflexivity. }
  revert Hpanic.
  destruct (addRecord (S fuel) r s) as [[c | p |] s1]; cbn [fst];
    intros Hpanic; try discriminate. injection Hpanic as ->. reflexivity.
Qed.

End FlowProperties.

Lemma FLBPluginFlush_panics_on_hidden_mapping_witness :
  let s := exampleState (exampleConfig 256000 1 5000) [] 1555612951401 in
  exists err,
    fst (FLBPluginFlush 10 [(TsUint64 1555612951, exampleRawRecord)] s)
      = Panic (ErrorValue err).
Proof.
  intros s.
  apply (FLBPluginFlush_panics_on_hidden_mapping 9 (TsUint64 1555612951)
           exampleRawRecord [] s "tags"
           (VSlice [VRawMap {[ KString "env" := VString "prod" ]}])).
  - destruct (remapRecord_outcome exampleRawRecord) as [(Hk & _) | (_ & Hr)];
      [exact Hk |].
    rewrite remapRecord_exampleRawRecord in Hr. discriminate.
  - reflexivity.
  - reflexivity.
  - discriminate.
  - discriminate.
  - discriminate.
  - left. vm_compute. discriminate.
Defined.

Section BatchProperties.

Context `{Encoding}.

(** Where one insertion leaves the batch. *)
Lemma addRecord_batch fuel record s :
  config (bufferManager (snd (addRecord fuel record s))) = config (bufferManager s) /\
  (buffer (bufferManager (snd (addRecord fuel record s))) = [] \/
   (buffer (bufferManager (snd (addRecord fuel record s)))
      = buffer (bufferManager s) ++ [record] /\
    Z.of_nat (length (buffer (bufferManager s) ++ [record]))
      < maxRecords (config (bufferManager s)))).
Proof.
  destruct (flushDue_dec s record) as [Hdue | Hn].
  - destruct (addRecord_due fuel record s Hdue) as (s2 & -> & Hbm & _).
    destruct (sendRecords_flushes fuel s2) as (_ & Hbm' & _). cbv zeta in Hbm'.
    rewrite Hbm'. cbn [swapped bufferManager config buffer]. rewrite Hbm.
    split; [reflexivity | left; reflexivity].
  - rewrite (addRecord_no_flush _ _ _ Hn). cbn.
    split; [reflexivity | right]. split; [reflexivity |].
    unfold flushDue in Hn. cbv zeta in Hn. lia.
Qed.

(** X9. The batch held in memory stays under [maxRecords] (empty, when
    [maxRecords] is 1 or less) across an ingestion call, wherever the call
    ends: returning, panicking, or still packaging; the configuration is
    left as it was. *)
Theorem FLBPluginFlush_batch_bounded fuel decoded : forall s,
  Z.of_nat (length (buffer (bufferManager s)))
    < Z.max 1 (maxRecords (config (bufferManager s))) ->
  let s' := snd (FLBPluginFlush fuel decoded s) in
  config (bufferManager s') = config (bufferManager s) /\
  Z.of_nat (length (buffer (bufferManager s')))
    < Z.max 1 (maxRecords (config (bufferManager s))).
Proof.
  induction decoded as [| [ts raw] rest IH]; intros s Hb; cbv zeta.
  - cbn. split; [reflexivity | assumption].
  - destruct (prepareRecord raw ts (config (bufferManager s))) as [r | p |] eqn:Hp.
    + rewrite (FLBPluginFlush_cons _ _ _ _ _ _ Hp).
      destruct (addRecord_batch fuel r s) as (Hcfg & Hbuf).
      assert (Hb1 : Z.of_nat (length (buffer (bufferManager (snd (addRecord fuel r s)))))
                    < Z.max 1 (maxRecords (config (bufferManager s)))).
      { destruct Hbuf as [-> | [-> Hlt]]; [cbn [length]; lia | lia]. }
      destruct (addRecord fuel r s) as [[c | p |] s1]; cbn [snd] in *.
      * specialize (IH s1). rewrite Hcfg in IH. apply IH. assumption.
      * split; assumption.
      * split; assumption.
    + rewrite (FLBPluginFlush_cons_panic _ _ _ _ _ _ Hp). cbn.
      split; [reflexivity | assumption].
    + exfalso. destruct (remapRecord_outcome raw) as [(_ & mid & Hr & _) | (_ & Hr)];
        unfold prepareRecord in Hp; rewrite Hr in Hp; discriminate.
Qed.

(** When a flush returns, the payloads it sent are the packaged forms of
    consecutive parts of the batch it took, and the batch left behind is
    empty. *)
Lemma sendRecords_returns fuel s c :
  fst (bind (sendRecords fuel) (fun c => ret (Some c)) s) = Ret c ->
  exists chunks parts,
    goroutines (snd (bind (sendRecords fuel) (fun c => ret (Some c)) s))
      = goroutines s ++ chunks /\
    Forall2 carries chunks parts /\
    concat parts = buffer (bufferManager s) /\
    bufferManager (snd (bind (sendRecords fuel) (fun c => ret (Some c)) s))
      = bufferManager (swapped s).
Proof.
  rewrite sendRecords_run.
  pose proof (prepare_returns fuel (buffer (bufferManager s)) (swapped s)) as Hret.
  destruct (prepare fuel (buffer (bufferManager s)) (swapped s))
    as [[[] | p | ] s1]; cbn [fst snd] in *; try discriminate.
  intros _. destruct (Hret eq_refl) as (chunks & parts & Hd & Hf & Hc).
  destruct Hd as (Hbm & _ & _ & _ & Hg).
  exists chunks, parts. split; [exact Hg |]. split; [| split; assumption].
  eapply Forall2_packs_carries. eassumption.
Qed.

Lemma addRecord_conserves fuel record s c :
  fst (addRecord fuel record s) = Ret c ->
  exists chunks parts,
    goroutines (snd (addRecord fuel record s)) = goroutines s ++ chunks /\
    Forall2 carries chunks parts /\
    concat parts ++ buffer (bufferManager (snd (addRecord fuel record s)))
      = buffer (bufferManager s) ++ [record].
Proof.
  destruct (flushDue_dec s record) as [Hdue | Hn].
  - destruct (addRecord_due fuel record s Hdue) as (s2 & -> & Hbm & Hg & _).
    intros Hret. destruct (sendRecords_returns fuel s2 c Hret)
      as (chunks & parts & Hg' & Hf & Hc & Hbm').
    exists chunks, parts. rewrite Hg', Hg, Hbm'. split; [reflexivity |].
    split; [assumption |]. cbn [swapped bufferManager buffer].
    rewrite app_nil_r, Hc, Hbm. reflexivity.
  - rewrite (addRecord_no_flush _ _ _ Hn). intros _. exists [], [].
    cbn. rewrite app_nil_r. split; [reflexivity |]. split; [constructor | reflexivity].
Qed.

(** X10. No record is lost or duplicated by an ingestion call that
    returns: each payload it sent is the packaged form of a list of records
    (it decompresses to the document [json.Marshal] writes for that list),
    and those lists, in the order sent, followed by the batch the call
    leaves, are the batch it found followed by the prepared records, in the
    order they came. *)
Theorem FLBPluginFlush_conserves fuel decoded : forall s c,
  fst (FLBPluginFlush fuel decoded s) = Ret c ->
  exists prepared chunks parts,
    Forall2 (fun d r => prepareRecord (snd d) (fst d) (config (bufferManager s)) = Ret r)
            decoded prepared /\
    goroutines (snd (FLBPluginFlush fuel decoded s)) = goroutines s ++ chunks /\
    Forall2 carries chunks parts /\
    concat parts ++ buffer (bufferManager (snd (FLBPluginFlush fuel decoded s)))
      = buffer (bufferManager s) ++ prepared.
Proof.
  induction decoded as [| [ts raw] rest IH]; intros s c.
  - intros _. exists [], [], []. cbn. rewrite !app_nil_r.
    split; [constructor |]. split; [reflexivity |]. split; [constructor | reflexivity].
  - destruct (prepareRecord raw ts (config (bufferManager s))) as [r | p |] eqn:Hp.
    2: { rewrite (FLBPluginFlush_cons_panic _ _ _ _ _ _ Hp). discriminate. }
    2: { exfalso. destruct (remapRecord_outcome raw) as [(_ & mid & Hr & _) | (_ & Hr)];
           unfold prepareRecord in Hp; rewrite Hr in Hp; discriminate. }
    rewrite (FLBPluginFlush_cons _ _ _ _ _ _ Hp).
    pose proof (addRecord_conserves fuel r s) as Hstep.
    destruct (addRecord_batch fuel r s) as (Hcfg & _).
    destruct (addRecord fuel r s) as [[c1 | p |] s1]; cbn [fst snd] in *;
      try discriminate.
    intros Hret.
    destruct (Hstep c1 eq_refl) as (chunks1 & parts1 & Hg1 & Hf1 & Hc1).
    destruct (IH s1 c Hret) as (prepared & chunks2 & parts2 & Hprep & Hg2 & Hf2 & Hc2).
    exists (r :: prepared), (chunks1 ++ chunks2), (parts1 ++ parts2).
    split; [constructor; [exact Hp | rewrite <- Hcfg; exact Hprep] |].
    split; [rewrite Hg2, Hg1, app_assoc; reflexivity |].
    split; [apply Forall2_app; assumption |].
    rewrite concat_app, <- app_assoc, Hc2, app_assoc, Hc1, <- app_assoc.
    reflexivity.
Qed.

End BatchProperties.

Lemma FLBPluginFlush_batch_bounded_witness :
  let s := exampleState (exampleConfig 256000 2 5000) [] 1555612951401 in
  let decoded := [(TsOther, ({[ KString "log" := VBytes "one" ]} : RawRecord));
                  (TsOther, {[ KString "log" := VBytes "two" ]});
                  (TsOther, {[ KString "log" := VBytes "three" ]})] in
  Z.of_nat (length (buffer (bufferManager (snd (FLBPluginFlush 5 decoded s))))) < 2.
Proof.
  intros s decoded.
  destruct (FLBPluginFlush_batch_bounded 5 decoded s) as [_ Hb].
  - vm_compute. reflexivity.
  - exact Hb.
Defined.

Lemma FLBPluginFlush_conserves_witness :
  let s := exampleState (exampleConfig 256000 2 5000) [] 1555612951401 in
  let decoded := [(TsOther, ({[ KString "log" := VBytes "one" ]} : RawRecord));
                  (TsOther, {[ KString "log" := VBytes "two" ]});
                  (TsOther, {[ KString "log" := VBytes "three" ]})] in
  exists prepared chunks parts,
    length prepared = 3%nat /\
    goroutines (snd (FLBPluginFlush 5 decoded s)) = chunks /\
    Forall2 carries chunks parts /\
    concat parts ++ buffer (bufferManager (snd (FLBPluginFlush 5 decoded s)))
      = prepared.
Proof.
  intros s decoded.
  destruct (FLBPluginFlush_conserves 5 decoded s FLB_OK eq_refl)
    as (prepared & chunks & parts & Hprep & Hg & Hf & Hc).
  exists prepared, chunks, parts.
  split; [symmetry; exact (Forall2_length _ _ _ Hprep) |].
  split; [exact Hg |]. split; [exact Hf | exact Hc].
Defined.

Section DeliveryProperties.

Context `{Encoding}.

(** X11. An insertion that triggers a flush of a batch that can be packaged
    (every run serializes, single records fit under the cap) returns the
    response channel, leaves an empty batch, and has sent the packaged
    forms of consecutive runs that make up, in order, the batch with the
    new record at its end. *)
Theorem addRecord_flush_delivers fuel record s :
  let batch := buffer (bufferManager s) ++ [record] in
  maxRecords (config (bufferManager s)) <= Z.of_nat (length batch) \/
  maxTimeBetweenFlushes (config (bufferManager s))
    < Int64.sub (nowMillis s) (lastFlushTime (bufferManager s)) ->
  packable (maxBufferSize (config (bufferManager s))) batch ->
  (length batch < fuel)%nat ->
  fst (addRecord fuel record s) = Ret (Some tt) /\
  buffer (bufferManager (snd (addRecord fuel record s))) = [] /\
  exists chunks parts,
    goroutines (snd (addRecord fuel record s)) = goroutines s ++ chunks /\
    Forall2 carries chunks parts /\
    concat parts = batch.
Proof.
  intros batch Hdue Hpack Hfuel.
  destruct (addRecord_due fuel record s Hdue) as (s2 & -> & Hbm & Hg & _).
  rewrite sendRecords_run.
  assert (Hbuf : buffer (bufferManager s2) = batch) by (rewrite Hbm; reflexivity).
  assert (Hcfg : config (bufferManager (swapped s2)) = config (bufferManager s))
    by (cbn; rewrite Hbm; reflexivity).
  rewrite Hbuf.
  pose proof (prepare_terminates fuel batch (swapped s2) Hfuel) as Hret.
  rewrite Hcfg in Hret. specialize (Hret Hpack).
  destruct (prepare_returns fuel batch (swapped s2) Hret)
    as (chunks & parts & (Hbm' & _ & _ & _ & Hg') & Hf & Hc).
  destruct (prepare fuel batch (swapped s2)) as [[[] | p | ] s1];
    cbn [fst snd] in *; try discriminate.
  cbn [swapped goroutines] in Hg'.
  split; [reflexivity |]. split; [rewrite Hbm'; reflexivity |].
  exists chunks, parts. split; [rewrite Hg', Hg; reflexivity |].
  split; [eapply Forall2_packs_carries; eassumption | assumption].
Qed.

Lemma FLBPluginExit_nonempty fuel s :
  buffer (bufferManager s) <> [] ->
  FLBPluginExit fuel s =
    match prepare fuel (buffer (bufferManager s)) (swapped s) with
    | (Ret _, s1) => (Ret FLB_OK, s1)
    | (Panic p, s1) => (Panic p, s1)
    | (OutOfFuel, s1) => (OutOfFuel, s1)
    end.
Proof.
  intros Hne. unfold FLBPluginExit, isEmpty. unfold bind at 1 2.
  unfold getBufferManager, ret at 1.
  destruct (buffer (bufferManager s)) as [|r rest] eqn:Hb; [contradiction |].
  cbn [length Nat.eqb]. unfold bind at 1. rewrite sendRecords_unfold. unfold bind, ret.
  rewrite Hb.
  destruct (prepare fuel (r :: rest) (swapped s)) as [[[] | p | ] s1]; reflexivity.
Qed.

(** X12. At shutdown an empty batch means nothing happens at all: no clock
    reading, no goroutine, the state as it was.  A waiting batch that can
    be packaged is flushed whatever the thresholds say: it is swapped for
    an empty one, the flush time is reset, and the payloads sent are the
    packaged forms of consecutive runs that make up, in order, the
    batch. *)
Theorem FLBPluginExit_flushes_batch fuel s :
  (buffer (bufferManager s) = [] -> FLBPluginExit fuel s = (Ret FLB_OK, s)) /\
  (buffer (bufferManager s) <> [] ->
   packable (maxBufferSize (config (bufferManager s))) (buffer (bufferManager s)) ->
   (length (buffer (bufferManager s)) < fuel)%nat ->
   fst (FLBPluginExit fuel s) = Ret FLB_OK /\
   buffer (bufferManager (snd (FLBPluginExit fuel s))) = [] /\
   lastFlushTime (bufferManager (snd (FLBPluginExit fuel s))) = nowMillis s /\
   exists chunks parts,
     goroutines (snd (FLBPluginExit fuel s)) = goroutines s ++ chunks /\
     Forall2 carries chunks parts /\
     concat parts = buffer (bufferManager s)).
Proof.
  split.
  - intros Hb. unfold FLBPluginExit, isEmpty. unfold bind, getBufferManager, ret.
    rewrite Hb. reflexivity.
  - intros Hne Hpack Hfuel. rewrite (FLBPluginExit_nonempty _ _ Hne).
    pose proof (prepare_terminates fuel (buffer (bufferManager s)) (swapped s) Hfuel
                  Hpack) as Hret.
    destruct (prepare_returns fuel _ (swapped s) Hret)
      as (chunks & parts & (Hbm' & _ & _ & _ & Hg') & Hf & Hc).
    destruct (prepare fuel (buffer (bufferManager s)) (swapped s))
      as [[[] | p | ] s1]; cbn [fst snd] in *; try discriminate.
    split; [reflexivity |]. rewrite Hbm'. split; [reflexivity |]. split; [reflexivity |].
    exists chunks, parts. split; [exact Hg' |].
    split; [eapply Forall2_packs_carries; eassumption | assumption].
Qed.

Lemma prepare_returns_parts fuel : forall records s,
  records <> [] ->
  fst (prepare fuel records s) = Ret tt ->
  exists chunks parts,
    dispatched s (snd (prepare fuel records s)) chunks /\
    Forall2 (packs (maxBufferSize (config (bufferManager s)))) parts chunks /\
    concat parts = records /\
    Forall (fun part => part <> []) parts.
Proof.
  induction fuel as [|fuel IH]; intros records s Hne; [discriminate |].
  destruct (packagePayload records) as [[data [err|]] | p |] eqn:Hp.
  - exfalso. eapply packagePayload_no_error; eassumption.
  - destruct (Z.lt_ge_cases (Buffer_Cap data)
                (maxBufferSize (config (bufferManager s)))) as [Hlt|Hge].
    + rewrite (prepare_send _ _ _ _ Hp Hlt). intros _.
      exists [data], [records]. split; [unfold dispatched; cbn; tauto |].
      split; [constructor; [split; assumption | constructor] |].
      split; [cbn; apply app_nil_r |]. constructor; [assumption | constructor].
    + intros Hret.
      assert (Hlen : (2 <= length records)%nat).
      { destruct records as [|r [|r' rest]]; [contradiction | | cbn; lia].
        exfalso. eapply (prepare_singleton_stuck r data Hp (S fuel) s); eassumption. }
      pose proof (Nat.div_lt (length records) 2 ltac:(lia) ltac:(lia)) as Hhalf.
      assert (Hpos : (1 <= length records / 2)%nat)
        by (apply Nat.div_le_lower_bound; lia).
      assert (Hfirst : take (length records / 2) records <> []).
      { intros Hnil. apply (f_equal length) in Hnil.
        rewrite length_take in Hnil. cbn [length] in Hnil. lia. }
      assert (Hsecond : drop (length records / 2) records <> []).
      { intros Hnil. apply (f_equal length) in Hnil.
        rewrite length_drop in Hnil. cbn [length] in Hnil. lia. }
      revert Hret. rewrite (prepare_split _ _ _ _ Hp Hge). unfold bind.
      pose proof (IH (take (length records / 2) records) s Hfirst) as IH1.
      destruct (prepare fuel (take (length records / 2) records) s)
        as [[[] | p | ] s1] eqn:H1; cbn; try discriminate.
      intros H2.
      destruct (IH1 eq_refl) as (c1 & p1 & Hd1 & Hf1 & Hc1 & Hn1). cbn in Hd1.
      destruct (IH _ _ Hsecond H2) as (c2 & p2 & Hd2 & Hf2 & Hc2 & Hn2).
      exists (c1 ++ c2), (p1 ++ p2).
      split; [eapply dispatched_trans; eassumption |].
      split; [| split].
      * apply Forall2_app; [assumption |].
        destruct Hd1 as (Hbm & _). rewrite <- Hbm. assumption.
      * rewrite concat_app, Hc1, Hc2. apply take_drop.
      * apply Forall_app. split; assumption.
  - rewrite (prepare_panic _ _ _ _ Hp). discriminate.
  - exfalso. eapply packagePayload_not_OutOfFuel; eassumption.
Qed.

Lemma length_concat_nonempty {A} (parts : list (list A)) :
  Forall (fun part => part <> []) parts ->
  (length parts <= length (concat parts))%nat.
Proof.
  induction 1 as [|part parts Hne _ IH]; [reflexivity |].
  cbn. rewrite length_app. destruct part; [contradiction |]. cbn. lia.
Qed.

(** X13. When packaging a batch that is not empty returns, every payload
    sent is the packaged form of a run of at least one record, the runs
    make up the batch in order, and there are at most as many payloads as
    records. *)
Theorem prepare_returns_no_empty_payload fuel records s :
  records <> [] ->
  fst (prepare fuel records s) = Ret tt ->
  exists chunks parts,
    goroutines (snd (prepare fuel records s)) = goroutines s ++ chunks /\
    Forall2 (fun b part => carries b part /\ part <> []) chunks parts /\
    concat parts = records /\
    (length chunks <= length records)%nat.
Proof.
  intros Hne Hret.
  destruct (prepare_returns_parts fuel records s Hne Hret)
    as (chunks & parts & (_ & _ & _ & _ & Hg) & Hf & Hc & Hn).
  exists chunks, parts. split; [exact Hg |]. split; [| split; [exact Hc |]].
  - clear -Hf Hn. induction Hf as [|part b parts chunks [Hp _] _ IH].
    + constructor.
    + apply Forall_cons in Hn as [Hpart Hn]. constructor; [| apply IH; assumption].
      split; [apply packagePayload_carries; assumption | assumption].
  - rewrite <- Hc, <- (Forall2_length _ _ _ Hf).
    apply length_concat_nonempty. assumption.
Qed.

Lemma prepare_nonpositive_cap_stuck fuel : forall records s,
  maxBufferSize (config (bufferManager s)) <= 0 ->
  fst (prepare fuel records s) <> Ret tt.
Proof.
  induction fuel as [|fuel IH]; intros records s Hcap; [discriminate |].
  destruct (packagePayload records) as [[data [err|]] | p |] eqn:Hp.
  - exfalso. eapply packagePayload_no_error; eassumption.
  - pose proof (Buffer_Len_Cap data) as Hlen.
    assert (Hge : maxBufferSize (config (bufferManager s)) <= Buffer_Cap data) by lia.
    rewrite (prepare_split _ _ _ _ Hp Hge). unfold bind.
    pose proof (IH (take (length records / 2) records) s Hcap) as IH1.
    destruct (prepare fuel (take (length records / 2) records) s)
      as [[[] | p | ] s1]; cbn in *; [contradiction | discriminate | discriminate].
  - rewrite (prepare_panic _ _ _ _ Hp). discriminate.
  - exfalso. eapply packagePayload_not_OutOfFuel; eassumption.
Qed.

(** X14. With a cap of 0 or less, which is what a [maxBufferSize] that does
    not parse leaves, packaging sends nothing and never returns, whatever
    the batch. *)
Theorem prepare_nonpositive_cap fuel records s :
  maxBufferSize (config (bufferManager s)) <= 0 ->
  fst (prepare fuel records s) <> Ret tt /\
  goroutines (snd (prepare fuel records s)) = goroutines s.
Proof.
  intros Hcap. split; [apply prepare_nonpositive_cap_stuck; assumption |].
  destruct (prepare_dispatches fuel records s) as (chunks & (_ & _ & _ & _ & Hg) & Hf).
  destruct chunks as [|b chunks]; [rewrite Hg; apply app_nil_r |].
  apply Forall_cons in Hf as [(seg & _ & _ & Hlt) _].
  pose proof (Buffer_Len_Cap b). lia.
Qed.

End DeliveryProperties.

Lemma addRecord_flush_delivers_witness :
  let s := exampleState (exampleConfig 256000 2 5000) [exampleRecord "first"]
             1555612951401 in
  fst (addRecord 5 (exampleRecord "second") s) = Ret (Some tt) /\
  buffer (bufferManager (snd (addRecord 5 (exampleRecord "second") s))) = [].
Proof.
  intros s.
  destruct (addRecord_flush_delivers 5 (exampleRecord "second") s)
    as (Hret & Hbuf & _).
  - left. vm_compute. discriminate.
  - intros seg (pre & post & Heq).
    assert (Hin : forall x, In x seg ->
              In x [exampleRecord "first"; exampleRecord "second"]).
    { intros x Hx. change (buffer (bufferManager s) ++ [exampleRecord "second"])
        with [exampleRecord "first"; exampleRecord "second"] in Heq.
      rewrite Heq. apply in_or_app. right. apply in_or_app. left. assumption. }
    assert (Hok : existsb (fun r => hasRawMap (VMap r)) seg = false).
    { apply not_true_iff_false. intros Hex.
      apply existsb_exists in Hex as (x & Hx & Hraw).
      destruct (Hin x Hx) as [<- | [<- | []]]; vm_compute in Hraw; discriminate. }
    exists seg. split.
    + unfold packagePayload. cbn. unfold Framed.Marshal. rewrite Hok. reflexivity.
    + intros Hlen. destruct seg as [|x [|y seg]]; [reflexivity | | cbn in Hlen; lia].
      destruct (Hin x (or_introl eq_refl)) as [<- | [<- | []]]; reflexivity.
  - cbn. lia.
  - split; assumption.
Defined.

Lemma prepare_returns_no_empty_payload_witness :
  let records := [exampleRecord mediumMessage; exampleRecord longMessage] in
  let s := exampleState (exampleConfig 300 1024 5000) [] 0 in
  exists chunks,
    goroutines (snd (prepare 3 records s)) = chunks /\ (length chunks <= 2)%nat.
Proof.
  intros records s.
  destruct (prepare_returns_no_empty_payload 3 records s)
    as (chunks & parts & Hg & _ & _ & Hlen).
  - discriminate.
  - reflexivity.
  - exists chunks. split; [exact Hg | exact Hlen].
Defined.

Lemma prepare_nonpositive_cap_witness :
  let s := exampleState (exampleConfig 0 1024 5000) [] 0 in
  fst (prepare 8 [exampleRecord "first"] s) <> Ret tt /\
  goroutines (snd (prepare 8 [exampleRecord "first"] s)) = [].
Proof.
  intros s. apply (prepare_nonpositive_cap 8 [exampleRecord "first"] s).
  vm_compute. discriminate.
Defined.

(** ** The dispatcher *)

Section DispatcherProperties.

Context `{Encoding}.
Variable VERSION : string.

(** The request [makeRequest] builds, when [http.NewRequest] accepts the
    endpoint. *)
Definition builtRequest (config : PluginConfig) (data : Buffer) : Request :=
  let req := {| Method := "POST"; URL := endpoint config; Body := data;
                Header := ∅ |} in
  Header_Add "Content-Type" "application/json"
    (Header_Add "Content-Encoding" "gzip"
       (if useApiKey config then Header_Add "X-Insert-Key" (apiKey config) req
        else Header_Add "X-License-Key" (licenseKey config) req)).

Lemma makeRequest_unfold net config data chan :
  makeRequest net config data chan =
    match NewRequest_error net (endpoint config) with
    | Some err => {| ending := Returned (Some err); events := []; channel := chan |}
    | None =>
        let req := builtRequest config data in
        match client_Do net req with
        | inr err =>
            {| ending := Returned (Some err);
               events := [EvDo req;
                          EvLog ("[DEBUG] Error making HTTP request: " ++ err)];
               channel := chan |}
        | inl resp =>
            if negb (StatusCode resp =? 202) then
              {| ending := Returned None;
                 events := [EvDo req;
                            EvLog ("[DEBUG] Error making HTTP request.  Got status code: "
                                   ++ pretty (StatusCode resp))];
                 channel := chan |}
            else
              if (length chan <? responseChanCapacity)%nat then
                {| ending := Returned None;
                   events := [EvDo req; EvSend resp; EvReadBody resp; EvCloseBody resp];
                   channel := chan ++ [resp] |}
              else
                {| ending := BlockedOnSend; events := [EvDo req]; channel := chan |}
        end
    end.
Proof. reflexivity. Qed.

Lemma makeRequest_EvDo net config data chan req :
  In (EvDo req) (events (makeRequest net config data chan)) ->
  req = builtRequest config data /\ NewRequest_error net (endpoint config) = None.
Proof.
  rewrite makeRequest_unfold. cbv zeta.
  destruct (NewRequest_error net (endpoint config)); [intros [] |].
  intros Hin. split; [| reflexivity]. revert Hin.
  destruct (client_Do net (builtRequest config data)) as [resp | err].
  - destruct (negb (StatusCode resp =? 202)); [| destruct (_ <? _)%nat];
      cbn [events In]; intros Hin;
      repeat (destruct Hin as [Hin | Hin]; try discriminate Hin);
      try contradiction; injection Hin as <-; reflexivity.
  - cbn [events In]. intros Hin;
      repeat (destruct Hin as [Hin | Hin]; try discriminate Hin);
      try contradiction; injection Hin as <-; reflexivity.
Qed.

(** X15. After a successful initialization, every request the dispatcher
    makes is a POST of the payload to the configured endpoint (the public
    one by default) with exactly three headers: the gzip content encoding,
    the JSON content type, and one credential header, X-Insert-Key or
    X-License-Key, whose only value is the configured key, which is not
    empty. *)
Theorem makeRequest_after_init (ctx : gmap string string) (s : State)
    (net : Transport) (data : Buffer) (chan : list Response) (req : Request) :
  fst (FLBPluginInit VERSION ctx s) = Ret FLB_OK ->
  let config := config (bufferManager (snd (FLBPluginInit VERSION ctx s))) in
  In (EvDo req) (events (makeRequest net config data chan)) ->
  Method req = "POST" /\
  Body req = data /\
  URL req = (if isEmptyString (FLBPluginConfigKey ctx "endpoint")
             then "https://log-api.newrelic.com/log/v1"
             else FLBPluginConfigKey ctx "endpoint") /\
  exists name key,
    ((name = "X-Insert-Key" /\ key = FLBPluginConfigKey ctx "apiKey") \/
     (name = "X-License-Key" /\ key = FLBPluginConfigKey ctx "licenseKey")) /\
    key <> "" /\
    Header req = {[ name := [key];
                    "Content-Encoding" := ["gzip"];
                    "Content-Type" := ["application/json"] ]}.
Proof.
  intros Hok config Hin.
  apply makeRequest_EvDo in Hin as [-> _]. subst config. revert Hok.
  unfold FLBPluginInit.
  set (a := FLBPluginConfigKey ctx "apiKey").
  set (l := FLBPluginConfigKey ctx "licenseKey").
  destruct (isEmptyString a) eqn:Ea, (isEmptyString l) eqn:El; cbn;
    unfold FLB_ERROR, FLB_OK; intros Hok; try discriminate.
  - split; [reflexivity |]. split; [reflexivity |]. split; [reflexivity |].
    exists "X-License-Key", l. split; [right; split; reflexivity |].
    split; [apply isEmptyString_false; assumption |].
    apply map_eq. intros i. unfold builtRequest, Header_Add. cbn.
    rewrite !lookup_insert. repeat case_decide; subst; try reflexivity;
      try congruence.
    rewrite lookup_empty, lookup_singleton_ne by assumption. reflexivity.
  - split; [reflexivity |]. split; [reflexivity |]. split; [reflexivity |].
    exists "X-Insert-Key", a. split; [left; split; reflexivity |].
    split; [apply isEmptyString_false; assumption |].
    apply map_eq. intros i. unfold builtRequest, Header_Add. cbn.
    rewrite !lookup_insert. repeat case_decide; subst; try reflexivity;
      try congruence.
    rewrite lookup_empty, lookup_singleton_ne by assumption. reflexivity.
Qed.

(** X16. What happens to a response.  A 202 on an empty channel is put on
    the channel, then its body is read and closed, and [makeRequest]
    returns nil.  A 202 on a channel that already holds a response parks
    the goroutine on the send, the body neither read nor closed.  Any other
    status is logged with its code and dropped: [makeRequest] returns nil,
    no error, and the body is neither read nor closed. *)
Theorem makeRequest_response net config data chan req resp :
  let run := makeRequest net config data chan in
  In (EvDo req) (events run) ->
  client_Do net req = inl resp ->
  (StatusCode resp = 202 -> chan = [] ->
     ending run = Returned None /\ channel run = [resp] /\
     events run = [EvDo req; EvSend resp; EvReadBody resp; EvCloseBody resp]) /\
  (StatusCode resp = 202 -> chan <> [] ->
     ending run = BlockedOnSend /\ channel run = chan /\
     events run = [EvDo req]) /\
  (StatusCode resp <> 202 ->
     ending run = Returned None /\ channel run = chan /\
     events run = [EvDo req;
                   EvLog ("[DEBUG] Error making HTTP request.  Got status code: "
                          ++ pretty (StatusCode resp))]).
Proof.
  intros run Hin Hdo. subst run.
  apply makeRequest_EvDo in Hin as [-> Hurl].
  rewrite makeRequest_unfold, Hurl. cbv zeta. rewrite Hdo.
  split; [| split].
  - intros -> ->. cbn. repeat split; reflexivity.
  - intros -> Hne. destruct chan as [|r chan]; [contradiction |].
    cbn. repeat split; reflexivity.
  - intros Hne. destruct (Z.eqb_spec (StatusCode resp) 202); [contradiction |].
    cbn. repeat split; reflexivity.
Qed.

(** X17. A goroutine ends in one of three ways: the response is delivered
    on the channel and nothing is logged; or it parks on the send and
    nothing is logged; or the payload is dropped, the channel is left as it
    was, [makeRequest] has returned, and at least one line is logged, the
    error itself when there is one. *)
Theorem goFunc_outcome net config data chan :
  let run := goFunc net config data chan in
  ((exists resp, In (EvSend resp) (events run) /\ channel run = chan ++ [resp] /\
                 ending run = Returned None) /\
   forall msg, ~ In (EvLog msg) (events run)) \/
  (ending run = BlockedOnSend /\ channel run = chan /\
   forall msg, ~ In (EvLog msg) (events run)) \/
  (channel run = chan /\
   (forall resp, ~ In (EvSend resp) (events run)) /\
   exists err, ending run = Returned err /\
     (exists msg, In (EvLog msg) (events run)) /\
     (forall e, err = Some e ->
        In (EvLog ("[DEBUG] Error making HTTP request: " ++ e)) (events run))).
Proof.
  cbv zeta. unfold goFunc. rewrite makeRequest_unfold. cbv zeta.
  destruct (NewRequest_error net (endpoint config)) as [err|].
  { right. right. cbn. split; [reflexivity |]. split; [intros resp [[=] | []] |].
    exists (Some err). split; [reflexivity |].
    split; [eexists; left; reflexivity |]. intros e [= <-]. left. reflexivity. }
  destruct (client_Do net (builtRequest config data)) as [resp | err].
  - destruct (negb (StatusCode resp =? 202)).
    + right. right. cbn. split; [reflexivity |].
      split; [intros r [[=] | [[=] | []]] |].
      exists None. split; [reflexivity |].
      split; [eexists; right; left; reflexivity | discriminate].
    + destruct (length chan <? responseChanCapacity)%nat.
      * left. cbn. split.
        -- exists resp. split; [right; left; reflexivity | split; reflexivity].
        -- intros msg [[=] | [[=] | [[=] | [[=] | []]]]].
      * right. left. cbn. split; [reflexivity |]. split; [reflexivity |].
        intros msg [[=] | []].
  - right. right. cbn. split; [reflexivity |].
    split; [intros r [[=] | [[=] | [[=] | []]]] |].
    exists (Some err). split; [reflexivity |].
    split; [eexists; right; left; reflexivity |].
    intros e [= <-]. right. left. reflexivity.
Qed.

Lemma runGoroutines_full net config : forall payloads chan,
  NewRequest_error net (endpoint config) = None ->
  (forall req, exists resp, client_Do net req = inl resp /\ StatusCode resp = 202) ->
  chan <> [] ->
  map ending (runGoroutines net config payloads chan)
    = map (fun _ => BlockedOnSend) payloads.
Proof.
  induction payloads as [|data rest IH]; intros chan Hurl Hok Hne; [reflexivity |].
  cbn [runGoroutines map].
  assert (Hrun : goFunc net config data chan
                 = {| ending := BlockedOnSend;
                      events := [EvDo (builtRequest config data)];
                      channel := chan |}).
  { unfold goFunc. rewrite makeRequest_unfold, Hurl. cbv zeta.
    destruct (Hok (builtRequest config data)) as (resp & -> & Hs). rewrite Hs.
    destruct chan; [contradiction | reflexivity]. }
  rewrite Hrun. cbn [ending channel]. f_equal. apply IH; assumption.
Qed.

(** X18. The goroutines of one flush share a channel of capacity 1 that
    [sendRecords] has just made.  When every request is answered 202 and
    nothing receives from the channel, the first goroutine to reach it
    delivers its response and returns, and every other one parks on its
    send. *)
Theorem runGoroutines_one_delivery net config data rest :
  NewRequest_error net (endpoint config) = None ->
  (forall req, exists resp, client_Do net req = inl resp /\ StatusCode resp = 202) ->
  map ending (runGoroutines net config (data :: rest) [])
    = Returned None :: map (fun _ => BlockedOnSend) rest.
Proof.
  intros Hurl Hok. cbn [runGoroutines map].
  destruct (Hok (builtRequest config data)) as (resp & Hdo & Hs).
  assert (Hrun : goFunc net config data []
                 = {| ending := Returned None;
                      events := [EvDo (builtRequest config data); EvSend resp;
                                 EvReadBody resp; EvCloseBody resp];
                      channel := [resp] |}).
  { unfold goFunc. rewrite makeRequest_unfold, Hurl. cbv zeta.
    rewrite Hdo, Hs. reflexivity. }
  rewrite Hrun. cbn [ending channel]. f_equal.
  apply runGoroutines_full; [assumption | assumption | discriminate].
Qed.

(** X19. Initialization, when it succeeds, starts from an empty batch,
    dropping whatever the buffer manager held, with the flush time read
    from the clock once; it logs nothing and starts nothing.  When it
    fails, it reads no clock and appends its one error line to the log. *)
Theorem FLBPluginInit_effects (ctx : gmap string string) (s : State) :
  let out := FLBPluginInit VERSION ctx s in
  (fst out = Ret FLB_OK \/ fst out = Ret FLB_ERROR) /\
  (fst out = Ret FLB_OK ->
     buffer (bufferManager (snd out)) = [] /\
     lastFlushTime (bufferManager (snd out)) = nowMillis s /\
     clockReads (snd out) = S (clockReads s) /\
     goroutines (snd out) = goroutines s /\
     logged (snd out) = logged s) /\
  (fst out = Ret FLB_ERROR ->
     clockReads (snd out) = clockReads s /\
     goroutines (snd out) = goroutines s /\
     exists msg, logged (snd out) = logged s ++ [msg]).
Proof.
  cbv zeta. unfold FLBPluginInit.
  destruct (isEmptyString (FLBPluginConfigKey ctx "apiKey")),
           (isEmptyString (FLBPluginConfigKey ctx "licenseKey"));
    cbn; unfold FLB_ERROR, FLB_OK;
    (split; [first [left; reflexivity | right; reflexivity] |]);
    (split; intros Hr; try discriminate Hr).
  - split; [reflexivity |]. split; [reflexivity |]. eexists. reflexivity.
  - repeat split; reflexivity.
  - repeat split; reflexivity.
  - split; [reflexivity |]. split; [reflexivity |]. eexists. reflexivity.
Qed.

End DispatcherProperties.

Lemma makeRequest_after_init_witness :
  let ctx : gmap string string := {[ "apiKey" := "insert-key" ]} in
  let s := initialState exampleClock in
  let config := config (bufferManager (snd (FLBPluginInit "1.1.0" ctx s))) in
  exists req,
    In (EvDo req) (events (makeRequest acceptingNet config [exampleRecord "first"] [])) /\
    Header req = {[ "X-Insert-Key" := ["insert-key"];
                    "Content-Encoding" := ["gzip"];
                    "Content-Type" := ["application/json"] ]}.
Proof.
  intros ctx s config. eexists. split; [left; reflexivity |].
  destruct (makeRequest_after_init "1.1.0" ctx s acceptingNet
              ([exampleRecord "first"] : @Buffer Framed.encoding) [] _ eq_refl
              (or_introl eq_refl))
    as (_ & _ & _ & name & key & [[-> ->] | [-> ->]] & Hne & Hh).
  - exact Hh.
  - exfalso. apply Hne. reflexivity.
Defined.

Lemma makeRequest_response_witness :
  let config := exampleConfig 256000 1024 5000 in
  let run := makeRequest overloadedNet config [exampleRecord "first"] [] in
  ending run = Returned None /\ channel run = [] /\
  forall resp, ~ In (EvCloseBody resp) (events run).
Proof.
  intros config run.
  destruct (makeRequest_response overloadedNet config
              ([exampleRecord "first"] : @Buffer Framed.encoding) []
              _ {| StatusCode := 503; ResponseBody := "busy" |}
              (or_introl eq_refl) eq_refl)
    as (_ & _ & Hdrop).
  destruct (Hdrop ltac:(discriminate)) as (Hend & Hchan & Hev).
  split; [exact Hend |]. split; [exact Hchan |].
  intros resp Hin. fold run in Hev. rewrite Hev in Hin.
  destruct Hin as [Hin | [Hin | []]]; discriminate.
Defined.

Lemma runGoroutines_one_delivery_witness :
  map ending
    (runGoroutines acceptingNet (exampleConfig 300 1024 5000)
       [[exampleRecord mediumMessage]; [exampleRecord longMessage]] [])
    = [Returned None; BlockedOnSend].
Proof.
  apply (runGoroutines_one_delivery acceptingNet (exampleConfig 300 1024 5000)
           ([exampleRecord mediumMessage] : @Buffer Framed.encoding)
           [[exampleRecord longMessage]]).
  - reflexivity.
  - intros req. eexists. split; reflexivity.
Defined.
